(** * Noisy odometry integrator and mesh-actor activation
      (RapyutaSimulationPlugins: RRBaseOdomComponent.cpp, RRMeshActor.h)

    Shallow embedding of [URRBaseOdomComponent::InitOdom], [UpdateOdom],
    [SensorUpdate], [SetFrameIds], [GetOdomTF], of
    [ARRMeshActor::SetActivated] / [IsActivated] /
    [CreateMeshComponentList] / [GetBaseMeshMaterial], and of
    [ARRRobotVehicleROSController::JointStateCallback].

    Scalars ([float], [double]) are modelled as real numbers: arithmetic is
    exact, there is no rounding, overflow or NaN.  A single-precision
    literal such as [1e-9f] denotes the exact value of the single-precision
    number it is, a double-precision literal such as [1e+12] its decimal
    value.  The engine's math types ([FVector],
    [FQuat], [FRotator], [FTransform]) are not part of the plugin; they are
    modelled after the engine's scalar code paths, with the engine's names. *)

From Stdlib Require Import Reals Lra ZArith Lia String.
From stdpp Require Import base list gmap strings.

#[local] Open Scope R_scope.

(** ** Scalars *)

Abbreviation float := R (only parsing).

(** A [bool] used as a factor ([bWithNoise * x]) is promoted to 0 or 1. *)
Definition bool_to_float (b : bool) : float := if b then 1 else 0.

(** The single-precision literals of the plugin, by their exact values:
    [1e-9f] is 9007199 / 2^53 (about 9.99999971718e-10), [1e-05f] is
    2748779 / 2^38 (about 9.99999974737875e-06) and [1e-03f] is
    8589935 / 2^33 (about 0.0010000000474974513). *)
Definition float32_1e_9 : float := 9007199 / 9007199254740992.
Definition float32_1e_5 : float := 2748779 / 274877906944.
Definition float32_1e_3 : float := 8589935 / 8589934592.

(** [SMALL_NUMBER], the default tolerance of [FQuat::Normalize]. *)
Definition SMALL_NUMBER : float := 1e-8.

(** [FMath::InvSqrt]. *)
Definition InvSqrt (x : float) : float := 1 / sqrt x.

(** [FMath::TruncToFloat]: rounding toward zero. *)
Definition TruncToFloat (x : float) : float :=
  if Rle_dec 0 x then IZR (Int_part x) else - IZR (Int_part (- x)).

(** [FMath::Fmod]: the remainder of [x / y] with the sign of [x]. *)
Definition Fmod (x y : float) : float := x - y * TruncToFloat (x / y).

(** ** FVector *)

Module FVector.

Record t : Type := Make { X : float; Y : float; Z : float }.

Definition ZeroVector : t := Make 0 0 0.
Definition OneVector : t := Make 1 1 1.

(** [operator+], [operator-], [Scale * V], [V / Scale], [A ^ B]. *)
Definition add (a b : t) : t := Make (X a + X b) (Y a + Y b) (Z a + Z b).
Definition sub (a b : t) : t := Make (X a - X b) (Y a - Y b) (Z a - Z b).
Definition scale (k : float) (v : t) : t := Make (X v * k) (Y v * k) (Z v * k).
Definition div (v : t) (k : float) : t :=
  let RScale := 1 / k in Make (X v * RScale) (Y v * RScale) (Z v * RScale).
Definition CrossProduct (a b : t) : t :=
  Make (Y a * Z b - Z a * Y b) (Z a * X b - X a * Z b) (X a * Y b - Y a * X b).

End FVector.

(** ** FQuat *)

Module FQuat.

Record t : Type := Make { X : float; Y : float; Z : float; W : float }.

Definition Identity : t := Make 0 0 0 1.

(** [operator*]: the Hamilton product; [a * b] applies [b] first. *)
Definition mul (a b : t) : t :=
  Make (W a * X b + X a * W b + Y a * Z b - Z a * Y b)
       (W a * Y b - X a * Z b + Y a * W b + Z a * X b)
       (W a * Z b + X a * Y b - Y a * X b + Z a * W b)
       (W a * W b - X a * X b - Y a * Y b - Z a * Z b).

(** [Inverse]: the conjugate (the inverse of a unit quaternion). *)
Definition Inverse (q : t) : t := Make (- X q) (- Y q) (- Z q) (W q).

Definition SizeSquared (q : t) : float :=
  X q * X q + Y q * Y q + Z q * Z q + W q * W q.

Definition Size (q : t) : float := sqrt (SizeSquared q).

(** [Normalize(Tolerance = SMALL_NUMBER)]: scale to unit length, or fall
    back to the identity when the quaternion is too small. *)
Definition Normalize (q : t) : t :=
  let SquareSum := SizeSquared q in
  if Rle_dec SMALL_NUMBER SquareSum
  then let Scale := InvSqrt SquareSum in
       Make (X q * Scale) (Y q * Scale) (Z q * Scale) (W q * Scale)
  else Identity.

(** [GetNormalized]: [Normalize] on a copy. *)
Definition GetNormalized (q : t) : t := Normalize q.

(** [RotateVector]: [V + W * T + Q x T] with [T = 2 * (Q x V)]. *)
Definition RotateVector (q : t) (v : FVector.t) : FVector.t :=
  let Q := FVector.Make (X q) (Y q) (Z q) in
  let T := FVector.scale 2 (FVector.CrossProduct Q v) in
  FVector.add (FVector.add v (FVector.scale (W q) T)) (FVector.CrossProduct Q T).

(** [UnrotateVector]: the same with the vector part negated. *)
Definition UnrotateVector (q : t) (v : FVector.t) : FVector.t :=
  let Q := FVector.Make (- X q) (- Y q) (- Z q) in
  let T := FVector.scale 2 (FVector.CrossProduct Q v) in
  FVector.add (FVector.add v (FVector.scale (W q) T)) (FVector.CrossProduct Q T).

End FQuat.

(** ** FRotator *)

Module FRotator.

(** Angles in degrees.  The constructor takes them in the engine's order:
    [FRotator(InPitch, InYaw, InRoll)]. *)
Record t : Type := Make { Pitch : float; Yaw : float; Roll : float }.

(** [Quaternion]: half angles in radians, after unwinding to one turn. *)
Definition Quaternion (r : t) : FQuat.t :=
  let DEG_TO_RAD := PI / 180 in
  let RADS_DIVIDED_BY_2 := DEG_TO_RAD / 2 in
  let PitchNoWinding := Fmod (Pitch r) 360 in
  let YawNoWinding := Fmod (Yaw r) 360 in
  let RollNoWinding := Fmod (Roll r) 360 in
  let SP := sin (PitchNoWinding * RADS_DIVIDED_BY_2) in
  let CP := cos (PitchNoWinding * RADS_DIVIDED_BY_2) in
  let SY := sin (YawNoWinding * RADS_DIVIDED_BY_2) in
  let CY := cos (YawNoWinding * RADS_DIVIDED_BY_2) in
  let SR := sin (RollNoWinding * RADS_DIVIDED_BY_2) in
  let CR := cos (RollNoWinding * RADS_DIVIDED_BY_2) in
  FQuat.Make (CR * SP * SY - SR * CP * CY)
             (- CR * SP * CY - SR * CP * SY)
             (CR * CP * SY - SR * SP * CY)
             (CR * CP * CY + SR * SP * SY).

End FRotator.

(** ** FTransform *)

Module FTransform.

Record t : Type :=
  Make { Rotation : FQuat.t; Translation : FVector.t; Scale3D : FVector.t }.

Definition Identity : t :=
  Make FQuat.Identity FVector.ZeroVector FVector.OneVector.

Definition GetTranslation (x : t) : FVector.t := Translation x.
Definition GetRotation (x : t) : FQuat.t := Rotation x.
Definition SetTranslation (v : FVector.t) (x : t) : t :=
  Make (Rotation x) v (Scale3D x).
Definition SetRotation (q : FQuat.t) (x : t) : t :=
  Make q (Translation x) (Scale3D x).

(** [FTransform(InRotation, InTranslation)]: unit scale. *)
Definition FromRotationTranslation (q : FQuat.t) (v : FVector.t) : t :=
  Make q v FVector.OneVector.

End FTransform.

(** ** ROS messages *)

(** Time stamp of a message header: seconds and nanoseconds. *)
Record FROSTime : Type := { Sec : Z; Nanosec : Z }.

Record FROSHeader : Type := { Stamp : FROSTime; HeaderFrameId : string }.

Record FROSPose : Type := { Position : FVector.t; Orientation : FQuat.t }.

Record FROSPoseWithCovariance : Type :=
  { PosePose : FROSPose; PoseCovariance : list float }.

Record FROSTwist : Type := { Linear : FVector.t; Angular : FVector.t }.

Record FROSTwistWithCovariance : Type :=
  { TwistTwist : FROSTwist; TwistCovariance : list float }.

(** The odometry message, [OdomData]: [Header], [ChildFrameId], [Pose]
    ([Pose.Pose], [Pose.Covariance]) and [Twist] ([Twist.Twist],
    [Twist.Covariance]).  A covariance is a row-major 6x6 matrix. *)
Record FROSOdometry : Type :=
  { Header : FROSHeader;
    OdomChildFrameId : string;
    Pose : FROSPoseWithCovariance;
    Twist : FROSTwistWithCovariance }.

(** Field assignments on [OdomData]. *)
Definition set_Stamp (v : FROSTime) (o : FROSOdometry) : FROSOdometry :=
  {| Header := {| Stamp := v; HeaderFrameId := HeaderFrameId (Header o) |};
     OdomChildFrameId := OdomChildFrameId o; Pose := Pose o; Twist := Twist o |}.

Definition set_HeaderFrameId (v : string) (o : FROSOdometry) : FROSOdometry :=
  {| Header := {| Stamp := Stamp (Header o); HeaderFrameId := v |};
     OdomChildFrameId := OdomChildFrameId o; Pose := Pose o; Twist := Twist o |}.

Definition set_OdomChildFrameId (v : string) (o : FROSOdometry) : FROSOdometry :=
  {| Header := Header o; OdomChildFrameId := v; Pose := Pose o; Twist := Twist o |}.

Definition set_Position (v : FVector.t) (o : FROSOdometry) : FROSOdometry :=
  {| Header := Header o; OdomChildFrameId := OdomChildFrameId o;
     Pose := {| PosePose := {| Position := v;
                               Orientation := Orientation (PosePose (Pose o)) |};
                PoseCovariance := PoseCovariance (Pose o) |};
     Twist := Twist o |}.

Definition set_Orientation (q : FQuat.t) (o : FROSOdometry) : FROSOdometry :=
  {| Header := Header o; OdomChildFrameId := OdomChildFrameId o;
     Pose := {| PosePose := {| Position := Position (PosePose (Pose o));
                               Orientation := q |};
                PoseCovariance := PoseCovariance (Pose o) |};
     Twist := Twist o |}.

(** [OdomData.Pose.Covariance[i] = v]. *)
Definition set_PoseCovariance (i : nat) (v : float) (o : FROSOdometry)
  : FROSOdometry :=
  {| Header := Header o; OdomChildFrameId := OdomChildFrameId o;
     Pose := {| PosePose := PosePose (Pose o);
                PoseCovariance := <[i := v]> (PoseCovariance (Pose o)) |};
     Twist := Twist o |}.

Definition set_Linear (v : FVector.t) (o : FROSOdometry) : FROSOdometry :=
  {| Header := Header o; OdomChildFrameId := OdomChildFrameId o; Pose := Pose o;
     Twist := {| TwistTwist := {| Linear := v;
                                  Angular := Angular (TwistTwist (Twist o)) |};
                 TwistCovariance := TwistCovariance (Twist o) |} |}.

Definition set_Angular (v : FVector.t) (o : FROSOdometry) : FROSOdometry :=
  {| Header := Header o; OdomChildFrameId := OdomChildFrameId o; Pose := Pose o;
     Twist := {| TwistTwist := {| Linear := Linear (TwistTwist (Twist o));
                                  Angular := v |};
                 TwistCovariance := TwistCovariance (Twist o) |} |}.

(** [OdomData.Twist.Covariance[i] = v]. *)
Definition set_TwistCovariance (i : nat) (v : float) (o : FROSOdometry)
  : FROSOdometry :=
  {| Header := Header o; OdomChildFrameId := OdomChildFrameId o; Pose := Pose o;
     Twist := {| TwistTwist := TwistTwist (Twist o);
                 TwistCovariance := <[i := v]> (TwistCovariance (Twist o)) |} |}.

(** The six diagonal entries of a row-major 6x6 covariance. *)
Definition diagonal (c : list float) : list (option float) :=
  [c !! 0%nat; c !! 7%nat; c !! 14%nat; c !! 21%nat; c !! 28%nat; c !! 35%nat].

(** ** The odometry component *)

Inductive EOdomSource : Type := WORLD | ENCODER.

(** [std::normal_distribution<>{a, b}]. *)
Record normal_distribution : Type := { dist_mean : float; dist_stddev : float }.

Record URRBaseOdomComponent : Type :=
  { (* configuration *)
    FrameId : string;
    ChildFrameId : string;
    OdomSource : EOdomSource;
    bWithNoise : bool;
    NoiseMeanPos : float;
    NoiseVariancePos : float;
    NoiseMeanRot : float;
    NoiseVarianceRot : float;
    RootOffset : FTransform.t;
    bManualUpdate : bool;
    (* running state *)
    GaussianRNGPosition : normal_distribution;
    GaussianRNGRotation : normal_distribution;
    OdomData : FROSOdometry;
    InitialTransform : FTransform.t;
    PreviousTransform : FTransform.t;
    PreviousNoisyTransform : FTransform.t;
    bIsOdomInitialized : bool;
    LastUpdatedTime : float }.

(** What one call reads from outside the component: the owner's
    ground-truth pose ([GetOwner()->GetActorLocation()], [GetActorQuat()]),
    the world clock ([UGameplayStatics::GetTimeSeconds]) and the values the
    random generator yields for the two position draws and the rotation
    draw of that call. *)
Record Tick : Type :=
  { ActorLocation : FVector.t;
    ActorQuat : FQuat.t;
    TimeSeconds : float;
    DrawPositionX : float;
    DrawPositionY : float;
    DrawRotation : float }.

(** Functions of the plugin and the engine that the component calls and
    whose code is not part of the modelled files:
    [URRConversionUtils::FloatToROSStamp] and [FQuat::Euler]. *)
Class Externals : Type :=
  { FloatToROSStamp : float -> FROSTime;
    Euler : FQuat.t -> FVector.t }.

(** Member assignments on the component. *)
Definition modify_OdomData (f : FROSOdometry -> FROSOdometry)
    (s : URRBaseOdomComponent) : URRBaseOdomComponent :=
  {| FrameId := FrameId s; ChildFrameId := ChildFrameId s;
     OdomSource := OdomSource s; bWithNoise := bWithNoise s;
     NoiseMeanPos := NoiseMeanPos s; NoiseVariancePos := NoiseVariancePos s;
     NoiseMeanRot := NoiseMeanRot s; NoiseVarianceRot := NoiseVarianceRot s;
     RootOffset := RootOffset s; bManualUpdate := bManualUpdate s;
     GaussianRNGPosition := GaussianRNGPosition s;
     GaussianRNGRotation := GaussianRNGRotation s;
     OdomData := f (OdomData s);
     InitialTransform := InitialTransform s;
     PreviousTransform := PreviousTransform s;
     PreviousNoisyTransform := PreviousNoisyTransform s;
     bIsOdomInitialized := bIsOdomInitialized s;
     LastUpdatedTime := LastUpdatedTime s |}.

Definition set_FrameIds (f c : string) (s : URRBaseOdomComponent)
  : URRBaseOdomComponent :=
  {| FrameId := f; ChildFrameId := c;
     OdomSource := OdomSource s; bWithNoise := bWithNoise s;
     NoiseMeanPos := NoiseMeanPos s; NoiseVariancePos := NoiseVariancePos s;
     NoiseMeanRot := NoiseMeanRot s; NoiseVarianceRot := NoiseVarianceRot s;
     RootOffset := RootOffset s; bManualUpdate := bManualUpdate s;
     GaussianRNGPosition := GaussianRNGPosition s;
     GaussianRNGRotation := GaussianRNGRotation s;
     OdomData := OdomData s;
     InitialTransform := InitialTransform s;
     PreviousTransform := PreviousTransform s;
     PreviousNoisyTransform := PreviousNoisyTransform s;
     bIsOdomInitialized := bIsOdomInitialized s;
     LastUpdatedTime := LastUpdatedTime s |}.

Definition set_GaussianRNG (p r : normal_distribution) (s : URRBaseOdomComponent)
  : URRBaseOdomComponent :=
  {| FrameId := FrameId s; ChildFrameId := ChildFrameId s;
     OdomSource := OdomSource s; bWithNoise := bWithNoise s;
     NoiseMeanPos := NoiseMeanPos s; NoiseVariancePos := NoiseVariancePos s;
     NoiseMeanRot := NoiseMeanRot s; NoiseVarianceRot := NoiseVarianceRot s;
     RootOffset := RootOffset s; bManualUpdate := bManualUpdate s;
     GaussianRNGPosition := p;
     GaussianRNGRotation := r;
     OdomData := OdomData s;
     InitialTransform := InitialTransform s;
     PreviousTransform := PreviousTransform s;
     PreviousNoisyTransform := PreviousNoisyTransform s;
     bIsOdomInitialized := bIsOdomInitialized s;
     LastUpdatedTime := LastUpdatedTime s |}.

Definition modify_InitialTransform (f : FTransform.t -> FTransform.t)
    (s : URRBaseOdomComponent) : URRBaseOdomComponent :=
  {| FrameId := FrameId s; ChildFrameId := ChildFrameId s;
     OdomSource := OdomSource s; bWithNoise := bWithNoise s;
     NoiseMeanPos := NoiseMeanPos s; NoiseVariancePos := NoiseVariancePos s;
     NoiseMeanRot := NoiseMeanRot s; NoiseVarianceRot := NoiseVarianceRot s;
     RootOffset := RootOffset s; bManualUpdate := bManualUpdate s;
     GaussianRNGPosition := GaussianRNGPosition s;
     GaussianRNGRotation := GaussianRNGRotation s;
     OdomData := OdomData s;
     InitialTransform := f (InitialTransform s);
     PreviousTransform := PreviousTransform s;
     PreviousNoisyTransform := PreviousNoisyTransform s;
     bIsOdomInitialized := bIsOdomInitialized s;
     LastUpdatedTime := LastUpdatedTime s |}.

Definition modify_PreviousTransform (f : FTransform.t -> FTransform.t)
    (s : URRBaseOdomComponent) : URRBaseOdomComponent :=
  {| FrameId := FrameId s; ChildFrameId := ChildFrameId s;
     OdomSource := OdomSource s; bWithNoise := bWithNoise s;
     NoiseMeanPos := NoiseMeanPos s; NoiseVariancePos := NoiseVariancePos s;
     NoiseMeanRot := NoiseMeanRot s; NoiseVarianceRot := NoiseVarianceRot s;
     RootOffset := RootOffset s; bManualUpdate := bManualUpdate s;
     GaussianRNGPosition := GaussianRNGPosition s;
     GaussianRNGRotation := GaussianRNGRotation s;
     OdomData := OdomData s;
     InitialTransform := InitialTransform s;
     PreviousTransform := f (PreviousTransform s);
     PreviousNoisyTransform := PreviousNoisyTransform s;
     bIsOdomInitialized := bIsOdomInitialized s;
     LastUpdatedTime := LastUpdatedTime s |}.

Definition modify_PreviousNoisyTransform (f : FTransform.t -> FTransform.t)
    (s : URRBaseOdomComponent) : URRBaseOdomComponent :=
  {| FrameId := FrameId s; ChildFrameId := ChildFrameId s;
     OdomSource := OdomSource s; bWithNoise := bWithNoise s;
     NoiseMeanPos := NoiseMeanPos s; NoiseVariancePos := NoiseVariancePos s;
     NoiseMeanRot := NoiseMeanRot s; NoiseVarianceRot := NoiseVarianceRot s;
     RootOffset := RootOffset s; bManualUpdate := bManualUpdate s;
     GaussianRNGPosition := GaussianRNGPosition s;
     GaussianRNGRotation := GaussianRNGRotation s;
     OdomData := OdomData s;
     InitialTransform := InitialTransform s;
     PreviousTransform := PreviousTransform s;
     PreviousNoisyTransform := f (PreviousNoisyTransform s);
     bIsOdomInitialized := bIsOdomInitialized s;
     LastUpdatedTime := LastUpdatedTime s |}.

Definition set_bIsOdomInitialized (b : bool) (s : URRBaseOdomComponent)
  : URRBaseOdomComponent :=
  {| FrameId := FrameId s; ChildFrameId := ChildFrameId s;
     OdomSource := OdomSource s; bWithNoise := bWithNoise s;
     NoiseMeanPos := NoiseMeanPos s; NoiseVariancePos := NoiseVariancePos s;
     NoiseMeanRot := NoiseMeanRot s; NoiseVarianceRot := NoiseVarianceRot s;
     RootOffset := RootOffset s; bManualUpdate := bManualUpdate s;
     GaussianRNGPosition := GaussianRNGPosition s;
     GaussianRNGRotation := GaussianRNGRotation s;
     OdomData := OdomData s;
     InitialTransform := InitialTransform s;
     PreviousTransform := PreviousTransform s;
     PreviousNoisyTransform := PreviousNoisyTransform s;
     bIsOdomInitialized := b;
     LastUpdatedTime := LastUpdatedTime s |}.

Definition set_LastUpdatedTime (v : float) (s : URRBaseOdomComponent)
  : URRBaseOdomComponent :=
  {| FrameId := FrameId s; ChildFrameId := ChildFrameId s;
     OdomSource := OdomSource s; bWithNoise := bWithNoise s;
     NoiseMeanPos := NoiseMeanPos s; NoiseVariancePos := NoiseVariancePos s;
     NoiseMeanRot := NoiseMeanRot s; NoiseVarianceRot := NoiseVarianceRot s;
     RootOffset := RootOffset s; bManualUpdate := bManualUpdate s;
     GaussianRNGPosition := GaussianRNGPosition s;
     GaussianRNGRotation := GaussianRNGRotation s;
     OdomData := OdomData s;
     InitialTransform := InitialTransform s;
     PreviousTransform := PreviousTransform s;
     PreviousNoisyTransform := PreviousNoisyTransform s;
     bIsOdomInitialized := bIsOdomInitialized s;
     LastUpdatedTime := v |}.

(** Configuring the mount offset, [RootOffset]. *)
Definition set_RootOffset (v : FTransform.t) (s : URRBaseOdomComponent)
  : URRBaseOdomComponent :=
  {| FrameId := FrameId s; ChildFrameId := ChildFrameId s;
     OdomSource := OdomSource s; bWithNoise := bWithNoise s;
     NoiseMeanPos := NoiseMeanPos s; NoiseVariancePos := NoiseVariancePos s;
     NoiseMeanRot := NoiseMeanRot s; NoiseVarianceRot := NoiseVarianceRot s;
     RootOffset := v; bManualUpdate := bManualUpdate s;
     GaussianRNGPosition := GaussianRNGPosition s;
     GaussianRNGRotation := GaussianRNGRotation s;
     OdomData := OdomData s;
     InitialTransform := InitialTransform s;
     PreviousTransform := PreviousTransform s;
     PreviousNoisyTransform := PreviousNoisyTransform s;
     bIsOdomInitialized := bIsOdomInitialized s;
     LastUpdatedTime := LastUpdatedTime s |}.

Section Odometry.

Context `{Externals}.

(** [URRBaseOdomComponent::SetFrameIds]. *)
Definition SetFrameIds (InFrameId InChildFrameId : string)
    (s : URRBaseOdomComponent) : URRBaseOdomComponent :=
  let s := set_FrameIds InFrameId (ChildFrameId s) s in
  let s := modify_OdomData (set_HeaderFrameId InFrameId) s in
  let s := set_FrameIds (FrameId s) InChildFrameId s in
  modify_OdomData (set_OdomChildFrameId InChildFrameId) s.

(** The hardcoded covariance writes of [InitOdom], in source order. *)
Definition write_covariances (o : FROSOdometry) : FROSOdometry :=
  let o := set_PoseCovariance 0 float32_1e_5 o in
  let o := set_PoseCovariance 7 float32_1e_5 o in
  let o := set_PoseCovariance 14 1e+12 o in
  let o := set_PoseCovariance 21 1e+12 o in
  let o := set_PoseCovariance 28 1e+12 o in
  let o := set_PoseCovariance 35 float32_1e_3 o in
  let o := set_TwistCovariance 0 float32_1e_5 o in
  let o := set_TwistCovariance 7 float32_1e_5 o in
  let o := set_TwistCovariance 14 1e+12 o in
  let o := set_TwistCovariance 21 1e+12 o in
  let o := set_TwistCovariance 28 1e+12 o in
  set_TwistCovariance 35 float32_1e_3 o.

(** [URRBaseOdomComponent::InitOdom]. *)
Definition InitOdom (w : Tick) (s : URRBaseOdomComponent)
  : URRBaseOdomComponent :=
  let s := set_GaussianRNG
             {| dist_mean := NoiseMeanPos s; dist_stddev := NoiseVariancePos s |}
             {| dist_mean := NoiseMeanRot s; dist_stddev := NoiseVarianceRot s |}
             s in
  let s := modify_OdomData (set_HeaderFrameId (FrameId s)) s in
  let s := modify_OdomData (set_OdomChildFrameId (ChildFrameId s)) s in
  let s :=
    match OdomSource s with
    | ENCODER =>
        (* odom source = encoder. Odom frame start from robot initial pose *)
        let s := modify_InitialTransform
                   (FTransform.SetTranslation (ActorLocation w)) s in
        modify_InitialTransform (FTransform.SetRotation (ActorQuat w)) s
    | WORLD =>
        (* odom source = world. Odom frame start from world origin *)
        let s := modify_InitialTransform
                   (FTransform.SetTranslation FVector.ZeroVector) s in
        modify_InitialTransform (FTransform.SetRotation FQuat.Identity) s
    end in
  let s := modify_OdomData
             (set_Position (FTransform.GetTranslation (InitialTransform s))) s in
  let s := modify_OdomData
             (set_Orientation (FTransform.GetRotation (InitialTransform s))) s in
  let s := modify_PreviousTransform (fun _ => InitialTransform s) s in
  let s := modify_PreviousNoisyTransform (fun _ => InitialTransform s) s in
  let s := modify_OdomData write_covariances s in
  let s := set_bIsOdomInitialized true s in
  set_LastUpdatedTime (TimeSeconds w) s.

(** The noise rotation of one update:
    [FRotator(0, 0, bWithNoise * GaussianRNGRotation(Gen))]. *)
Definition noiseRot (w : Tick) (s : URRBaseOdomComponent) : FRotator.t :=
  FRotator.Make 0 0 (bool_to_float (bWithNoise s) * DrawRotation w).

(** The body of [UpdateOdom] after the two guards. *)
Definition UpdateOdom_body (w : Tick) (InDeltaTime : float)
    (s : URRBaseOdomComponent) : URRBaseOdomComponent :=
  (* time *)
  let s := modify_OdomData (set_Stamp (FloatToROSStamp (TimeSeconds w))) s in
  (* previous estimated data (with noise) *)
  let previousEstimatedPos :=
    FTransform.GetTranslation (PreviousNoisyTransform s) in
  let previousEstimatedRot :=
    FTransform.GetRotation (PreviousNoisyTransform s) in
  (* position *)
  let pos :=
    FQuat.UnrotateVector (FTransform.GetRotation (InitialTransform s))
      (FVector.sub (ActorLocation w)
                   (FTransform.GetTranslation (InitialTransform s))) in
  let previousPos := FTransform.GetTranslation (PreviousTransform s) in
  let s := modify_PreviousTransform (FTransform.SetTranslation pos) s in
  let pos :=
    FVector.add pos
      (FVector.add (FVector.sub previousEstimatedPos previousPos)
         (FVector.scale (bool_to_float (bWithNoise s))
            (FVector.Make (DrawPositionX w) (DrawPositionY w) 0))) in
  let noiseRot := noiseRot w s in
  let rot :=
    FQuat.mul (ActorQuat w)
              (FQuat.Inverse (FTransform.GetRotation (InitialTransform s))) in
  let previousRot := FTransform.GetRotation (PreviousTransform s) in
  let s := modify_PreviousTransform (FTransform.SetRotation rot) s in
  let rot :=
    FQuat.mul
      (FQuat.mul (FQuat.mul (FRotator.Quaternion noiseRot) previousEstimatedRot)
                 (FQuat.Inverse previousRot))
      rot in
  let rot := FQuat.Normalize rot in
  let s := modify_PreviousNoisyTransform (FTransform.SetTranslation pos) s in
  let s := modify_PreviousNoisyTransform (FTransform.SetRotation rot) s in
  let s := modify_OdomData
             (set_Position
                (FVector.add pos (FTransform.GetTranslation (RootOffset s)))) s in
  let s := modify_OdomData (set_Orientation rot) s in
  let s := modify_OdomData
             (set_Linear
                (FVector.div
                   (FQuat.UnrotateVector
                      (Orientation (PosePose (Pose (OdomData s))))
                      (FVector.sub pos previousEstimatedPos))
                   InDeltaTime)) s in
  let s := modify_OdomData
             (set_Angular
                (FVector.div
                   (Euler (FQuat.GetNormalized
                             (FQuat.mul rot (FQuat.Inverse previousEstimatedRot))))
                   InDeltaTime)) s in
  modify_OdomData
    (set_Orientation
       (FQuat.mul (Orientation (PosePose (Pose (OdomData s))))
                  (FTransform.GetRotation (RootOffset s)))) s.

(** The lazy initialisation at the head of [UpdateOdom]. *)
Definition ensure_initialized (w : Tick) (s : URRBaseOdomComponent)
  : URRBaseOdomComponent :=
  if bIsOdomInitialized s then s else InitOdom w s.

(** [URRBaseOdomComponent::UpdateOdom]. *)
Definition UpdateOdom (w : Tick) (InDeltaTime : float)
    (s : URRBaseOdomComponent) : URRBaseOdomComponent :=
  let s := ensure_initialized w s in
  if Rlt_dec InDeltaTime float32_1e_9 then s
  else UpdateOdom_body w InDeltaTime s.

(** [URRBaseOdomComponent::SensorUpdate]. *)
Definition SensorUpdate (w : Tick) (s : URRBaseOdomComponent)
  : URRBaseOdomComponent :=
  if bManualUpdate s then s
  else
    let currentTime := TimeSeconds w in
    let s := UpdateOdom w (currentTime - LastUpdatedTime s) s in
    set_LastUpdatedTime currentTime s.

(** [URRBaseOdomComponent::GetOdomTF]. *)
Definition GetOdomTF (s : URRBaseOdomComponent) : FTransform.t :=
  FTransform.FromRotationTranslation
    (Orientation (PosePose (Pose (OdomData s))))
    (Position (PosePose (Pose (OdomData s)))).

(** The calls a client makes on the component, and a run of them. *)
Inductive Call : Type :=
| CallInitOdom (w : Tick)
| CallUpdateOdom (w : Tick) (InDeltaTime : float)
| CallSensorUpdate (w : Tick)
| CallSetFrameIds (InFrameId InChildFrameId : string).

Definition call (c : Call) (s : URRBaseOdomComponent) : URRBaseOdomComponent :=
  match c with
  | CallInitOdom w => InitOdom w s
  | CallUpdateOdom w dt => UpdateOdom w dt s
  | CallSensorUpdate w => SensorUpdate w s
  | CallSetFrameIds f c => SetFrameIds f c s
  end.

Fixpoint run_calls (cs : list Call) (s : URRBaseOdomComponent)
  : URRBaseOdomComponent :=
  match cs with
  | [] => s
  | c :: rest => run_calls rest (call c s)
  end.

End Odometry.

(** ** The mesh actor *)

Module FIntVector.

Record t : Type := Make { X : Z; Y : Z; Z : Z }.

(** [INDEX_NONE]. *)
Definition INDEX_NONE : BinNums.Z := (-1)%Z.

Definition ZeroValue : t := Make 0 0 0.
Definition NoneValue : t := Make INDEX_NONE INDEX_NONE INDEX_NONE.

(** [operator==]. *)
Definition eqb (a b : t) : bool :=
  (X a =? X b)%Z && (Y a =? Y b)%Z && (Z a =? Z b)%Z.

End FIntVector.

(** The members of [ARRMeshActor] that [SetActivated] and [IsActivated]
    touch, directly or through the engine: the grid cell index, the actor
    location (written by [SetActorLocation]), the hidden-in-game flag
    (written by [SetActorHiddenInGame]), and the render state [Render] that
    [SetCustomDepthEnabled] works on. *)
Record ARRMeshActor (RenderState : Type) : Type :=
  { CellIdx : FIntVector.t;
    MeshActorLocation : FVector.t;
    bHidden : bool;
    Render : RenderState }.

Arguments CellIdx {RenderState} _.
Arguments MeshActorLocation {RenderState} _.
Arguments bHidden {RenderState} _.
Arguments Render {RenderState} _.

Section MeshActor.

Context {RenderState : Type}.

(** The compile-time switch [RAPYUTA_SIM_VISUAL_DEBUG]. *)
Variable RAPYUTA_SIM_VISUAL_DEBUG : bool.

(** [ARRMeshActor::SetCustomDepthEnabled], declared in the header and
    defined outside the modelled files. *)
Variable SetCustomDepthEnabled :
  bool -> ARRMeshActor RenderState -> ARRMeshActor RenderState.

(** The delegate [OnDeactivated]: [None] when unbound, otherwise the bound
    callback, which receives the actor. *)
Variable OnDeactivated :
  option (ARRMeshActor RenderState -> ARRMeshActor RenderState).

Definition set_CellIdx (v : FIntVector.t) (a : ARRMeshActor RenderState)
  : ARRMeshActor RenderState :=
  {| CellIdx := v; MeshActorLocation := MeshActorLocation a;
     bHidden := bHidden a; Render := Render a |}.

(** [AActor::SetActorLocation] without sweep. *)
Definition SetActorLocation (v : FVector.t) (a : ARRMeshActor RenderState)
  : ARRMeshActor RenderState :=
  {| CellIdx := CellIdx a; MeshActorLocation := v;
     bHidden := bHidden a; Render := Render a |}.

(** [AActor::SetActorHiddenInGame]. *)
Definition SetActorHiddenInGame (b : bool) (a : ARRMeshActor RenderState)
  : ARRMeshActor RenderState :=
  {| CellIdx := CellIdx a; MeshActorLocation := MeshActorLocation a;
     bHidden := b; Render := Render a |}.

(** [OnDeactivated.ExecuteIfBound(this)]. *)
Definition ExecuteIfBound (a : ARRMeshActor RenderState)
  : ARRMeshActor RenderState :=
  match OnDeactivated with
  | Some callback => callback a
  | None => a
  end.

(** [ARRMeshActor::SetActivated]. *)
Definition SetActivated (bInIsActivated : bool) (a : ARRMeshActor RenderState)
  : ARRMeshActor RenderState :=
  let a :=
    if RAPYUTA_SIM_VISUAL_DEBUG
    then SetActorHiddenInGame (negb bInIsActivated) a
    else a in
  let a :=
    if negb bInIsActivated then
      let a := set_CellIdx FIntVector.NoneValue a in
      let a := SetActorLocation (FVector.Make 0 0 (-5000)) a in
      ExecuteIfBound a
    else if FIntVector.eqb (CellIdx a) FIntVector.NoneValue then
      set_CellIdx FIntVector.ZeroValue a
    else a in
  SetCustomDepthEnabled bInIsActivated a.

(** [ARRMeshActor::IsActivated]. *)
Definition IsActivated (a : ARRMeshActor RenderState) : bool :=
  negb (FIntVector.eqb (CellIdx a) FIntVector.NoneValue).

End MeshActor.

(** ** Concrete inputs *)

(** An instance of the external functions, for evaluating the model on
    concrete inputs: whole seconds and the remaining nanoseconds for the
    stamp, and no angles for [Euler]. *)
Definition example_externals : Externals :=
  {| FloatToROSStamp :=
       fun t => {| Sec := Int_part t;
                   Nanosec := Int_part ((t - IZR (Int_part t)) * 1e9) |};
     Euler := fun _ => FVector.ZeroVector |}.

(** A freshly constructed message: everything zero, 36 covariance cells. *)
Definition example_OdomData : FROSOdometry :=
  {| Header := {| Stamp := {| Sec := 0; Nanosec := 0 |};
                  HeaderFrameId := EmptyString |};
     OdomChildFrameId := EmptyString;
     Pose := {| PosePose := {| Position := FVector.ZeroVector;
                               Orientation := FQuat.Identity |};
                PoseCovariance := replicate 36 0 |};
     Twist := {| TwistTwist := {| Linear := FVector.ZeroVector;
                                  Angular := FVector.ZeroVector |};
                 TwistCovariance := replicate 36 0 |} |}.

(** A component before its first update, with frame id "odom" as the
    constructor sets it, no root offset, and the given source and noise
    switch. *)
Definition example_component (source : EOdomSource) (noise : bool)
  : URRBaseOdomComponent :=
  {| FrameId := "odom"; ChildFrameId := "base_footprint";
     OdomSource := source; bWithNoise := noise;
     NoiseMeanPos := 0; NoiseVariancePos := 1;
     NoiseMeanRot := 0; NoiseVarianceRot := 1;
     RootOffset := FTransform.Identity; bManualUpdate := false;
     GaussianRNGPosition := {| dist_mean := 0; dist_stddev := 1 |};
     GaussianRNGRotation := {| dist_mean := 0; dist_stddev := 1 |};
     OdomData := example_OdomData;
     InitialTransform := FTransform.Identity;
     PreviousTransform := FTransform.Identity;
     PreviousNoisyTransform := FTransform.Identity;
     bIsOdomInitialized := false;
     LastUpdatedTime := 0 |}.

(** A body at (1, 2, 3), turned half a turn about the vertical axis, at
    time [t], with the given draws of the random generator. *)
Definition example_tick (t dx dy dr : float) : Tick :=
  {| ActorLocation := FVector.Make 1 2 3;
     ActorQuat := FQuat.Make 0 0 1 0;
     TimeSeconds := t;
     DrawPositionX := dx; DrawPositionY := dy; DrawRotation := dr |}.

(** ** Predicates used in the statements *)

(** A unit quaternion. *)
Definition IsUnit (q : FQuat.t) : Prop := FQuat.SizeSquared q = 1.

(** The covariance diagonal that [InitOdom] writes. *)
Definition fixed_diagonal : list (option float) :=
  [Some float32_1e_5; Some float32_1e_5; Some 1e12; Some 1e12; Some 1e12;
   Some float32_1e_3].

(** The covariance diagonal in the decimal values of the specification. *)
Definition decimal_diagonal : list (option float) :=
  [Some 1e-5; Some 1e-5; Some 1e12; Some 1e12; Some 1e12; Some 1e-3].

Definition has_fixed_covariances (o : FROSOdometry) : Prop :=
  diagonal (PoseCovariance (Pose o)) = fixed_diagonal /\
  diagonal (TwistCovariance (Twist o)) = fixed_diagonal.

(** Both covariance arrays have their 36 cells. *)
Definition has_covariance_cells (o : FROSOdometry) : Prop :=
  length (PoseCovariance (Pose o)) = 36%nat /\
  length (TwistCovariance (Twist o)) = 36%nat.

(** The ground-truth pose of a tick expressed relative to a reference
    transform, as [UpdateOdom] computes it: the position un-rotated from
    the reference origin, the orientation composed with the inverse of the
    reference rotation. *)
Definition relative_position (ref : FTransform.t) (w : Tick) : FVector.t :=
  FQuat.UnrotateVector (FTransform.GetRotation ref)
    (FVector.sub (ActorLocation w) (FTransform.GetTranslation ref)).

Definition relative_rotation (ref : FTransform.t) (w : Tick) : FQuat.t :=
  FQuat.mul (ActorQuat w) (FQuat.Inverse (FTransform.GetRotation ref)).

(** The reference transform that an initialisation reading the tick [w0]
    fixes: the body's ground-truth pose for the source ENCODER, the world
    origin for the source WORLD (the scale is left as it was). *)
Definition initial_reference (w0 : Tick) (s : URRBaseOdomComponent)
  : FTransform.t :=
  match OdomSource s with
  | ENCODER =>
      FTransform.Make (ActorQuat w0) (ActorLocation w0)
        (FTransform.Scale3D (InitialTransform s))
  | WORLD =>
      FTransform.Make FQuat.Identity FVector.ZeroVector
        (FTransform.Scale3D (InitialTransform s))
  end.

(** A component that passes the ground truth of the tick [w] through: its
    reference transform is [ref], both running transforms hold the ground
    truth relative to [ref], and the emitted pose is that relative ground
    truth shifted by the offset. *)
Definition passes_ground_truth (ref offset : FTransform.t) (w : Tick)
    (s : URRBaseOdomComponent) : Prop :=
  InitialTransform s = ref /\
  PreviousNoisyTransform s = PreviousTransform s /\
  FTransform.Translation (PreviousTransform s) = relative_position ref w /\
  FTransform.Rotation (PreviousTransform s) = relative_rotation ref w /\
  Position (PosePose (Pose (OdomData s))) =
    FVector.add (relative_position ref w) (FTransform.Translation offset) /\
  Orientation (PosePose (Pose (OdomData s))) =
    FQuat.mul (relative_rotation ref w) (FTransform.Rotation offset).

(** The noisy position and rotation that one update computes from the
    state it starts in: the relative ground truth, shifted by the drift
    accumulated so far and by the noise of this update. *)
Definition noisy_position (w : Tick) (s : URRBaseOdomComponent) : FVector.t :=
  FVector.add (relative_position (InitialTransform s) w)
    (FVector.add
       (FVector.sub (FTransform.Translation (PreviousNoisyTransform s))
                    (FTransform.Translation (PreviousTransform s)))
       (FVector.scale (bool_to_float (bWithNoise s))
          (FVector.Make (DrawPositionX w) (DrawPositionY w) 0))).

Definition noisy_rotation (w : Tick) (s : URRBaseOdomComponent) : FQuat.t :=
  FQuat.Normalize
    (FQuat.mul
       (FQuat.mul
          (FQuat.mul (FRotator.Quaternion (noiseRot w s))
                     (FTransform.Rotation (PreviousNoisyTransform s)))
          (FQuat.Inverse (FTransform.Rotation (PreviousTransform s))))
       (relative_rotation (InitialTransform s) w)).

(** Where a sensor mounted at [RootOffset] on the body is, for the body
    pose the component currently estimates: the offset turned by the
    body's orientation and added to the body's position. *)
Definition mounted_position (s : URRBaseOdomComponent) : FVector.t :=
  FVector.add (FTransform.Translation (PreviousNoisyTransform s))
    (FQuat.RotateVector (FTransform.Rotation (PreviousNoisyTransform s))
       (FTransform.Translation (RootOffset s))).

(** The ground-truth orientation a call reads, if it reads one, is a unit
    quaternion. *)
Definition reads_unit_quat (c : Call) : Prop :=
  match c with
  | CallInitOdom w | CallUpdateOdom w _ | CallSensorUpdate w => IsUnit (ActorQuat w)
  | CallSetFrameIds _ _ => True
  end.

(** What holds of the covariances in every state a fresh component
    reaches. *)
Definition covariance_invariant (s : URRBaseOdomComponent) : Prop :=
  has_covariance_cells (OdomData s) /\
  (bIsOdomInitialized s = true -> has_fixed_covariances (OdomData s)).

(** What holds in every state a fresh, noise-free component reaches when
    the ground-truth orientations it reads are unit quaternions. *)
Definition noiseless_invariant (s : URRBaseOdomComponent) : Prop :=
  bIsOdomInitialized s = true ->
  PreviousNoisyTransform s = PreviousTransform s /\
  IsUnit (FTransform.Rotation (PreviousTransform s)) /\
  IsUnit (FTransform.Rotation (InitialTransform s)).

(** ** Concrete mesh actor *)

(** A render state of one custom-depth flag per mesh component, the render
    pass switching all of them, and a deactivation callback that hides the
    actor it is told about. *)
Definition example_SetCustomDepthEnabled (b : bool) (a : ARRMeshActor (list bool))
  : ARRMeshActor (list bool) :=
  {| CellIdx := CellIdx a; MeshActorLocation := MeshActorLocation a;
     bHidden := bHidden a; Render := map (fun _ => b) (Render a) |}.

Definition example_OnDeactivated
  : option (ARRMeshActor (list bool) -> ARRMeshActor (list bool)) :=
  Some (SetActorHiddenInGame true).

(** An activated actor in grid cell (2, 3, 0). *)
Definition example_mesh_actor : ARRMeshActor (list bool) :=
  {| CellIdx := FIntVector.Make 2 3 0;
     MeshActorLocation := FVector.Make 10 20 0;
     bHidden := false;
     Render := [true; true] |}.

(** A list of 36 cells, spelled out. *)
Ltac spell_out_cells c Hlen :=
  do 36 (destruct c as [| ? c]; [discriminate Hlen |]);
  destruct c; [clear Hlen | discriminate Hlen].

(** ** The ROS controller: joint commands
       (RRRobotVehicleROSController.cpp) *)

(** The joint-state message, with the field names of the source. *)
Module FROSJointState.

Record t : Type :=
  { name : list string;
    position : list float;
    velocity : list float;
    effort : list float }.

End FROSJointState.

Inductive EJointControlType : Type := POSITION | VELOCITY | EFFORT.

(** What the callback reads of a joint of the vehicle. *)
Record URobotVehicleJoint : Type := { LinearDOF : Z; RotationalDOF : Z }.

(** Reading a cell of an array of scalars. *)
#[global] Instance float_inhabited : Inhabited R := populate 0.

(** [FString] keys of a [TMap] are compared, and hashed, without regard to
    the case of the ASCII letters ([FString::operator==] is
    [FCString::Stricmp]).  The model keeps such a key by its lower-case
    form: [FChar::ToLower] on each character. *)
Definition ToLower (c : Ascii.ascii) : Ascii.ascii :=
  let n := Ascii.N_of_ascii c in
  if (65 <=? n)%N && (n <=? 90)%N then Ascii.ascii_of_N (n + 32) else c.

Fixpoint FString_key (s : string) : string :=
  match s with
  | EmptyString => EmptyString
  | String c rest => String (ToLower c) (FString_key rest)
  end.

(** [M_PI]. *)
Definition M_PI : float := PI.

(** [input[0] *= k]. *)
Definition scale_first (k : float) (input : list float) : list float :=
  <[0%nat := (input !!! 0%nat) * k]> input.

(** One iteration of the loop of [JointStateCallback], for the name at
    index [i]: joints the vehicle does not have are skipped; the others get
    a one-cell input, converted from ROS to engine units, and are put in
    the map (replacing an earlier entry of the same name).  Both maps,
    [vehicle->Joints] and [joints], are keyed by [FString]: by the
    lower-case form of the joint names. *)
Definition joint_command_step (Joints : gmap string URobotVehicleJoint)
    (jointControlType : EJointControlType) (jointState : FROSJointState.t)
    (i : nat) (joints : gmap string (list float)) : gmap string (list float) :=
  let jointName := FString_key (FROSJointState.name jointState !!! i) in
  match Joints !! jointName with
  | None => joints
  | Some joint =>
      let input : option (list float) :=
        match jointControlType with
        | POSITION => Some [FROSJointState.position jointState !!! i]
        | VELOCITY => Some [FROSJointState.velocity jointState !!! i]
        | EFFORT => None
        end in
      match input with
      | None => joints
      | Some input =>
          (* ROS To UE conversion *)
          let input :=
            if (LinearDOF joint =? 1)%Z then scale_first 100 input
            else if (RotationalDOF joint =? 1)%Z
                 then scale_first (180 / M_PI) input
                 else input in
          <[jointName := input]> joints
      end
  end.

(** The loop [for (i = 0; i < jointState.name.Num(); i++)], from index [i]
    for [count] iterations. *)
Fixpoint joint_command_loop (Joints : gmap string URobotVehicleJoint)
    (jointControlType : EJointControlType) (jointState : FROSJointState.t)
    (i count : nat) (joints : gmap string (list float))
  : gmap string (list float) :=
  match count with
  | O => joints
  | S count' =>
      joint_command_loop Joints jointControlType jointState (S i) count'
        (joint_command_step Joints jointControlType jointState i joints)
  end.

(** [ARRRobotVehicleROSController::JointStateCallback], for a vehicle with
    the joints [Joints]: [None] as message is a message that is not a valid
    joint state; the result is the call [SetJointState(joints,
    jointControlType)] handed to the game thread, if there is one. *)
Definition JointStateCallback (Joints : gmap string URobotVehicleJoint)
    (jointStateMsg : option FROSJointState.t)
  : option (gmap string (list float) * EJointControlType) :=
  match jointStateMsg with
  | None => None
  | Some jointState =>
      let jointControlType : option EJointControlType :=
        if (length (FROSJointState.name jointState) =?
            length (FROSJointState.position jointState))%nat
        then Some POSITION
        else if (length (FROSJointState.name jointState) =?
                 length (FROSJointState.velocity jointState))%nat
        then Some VELOCITY
        else if (length (FROSJointState.name jointState) =?
                 length (FROSJointState.effort jointState))%nat
        then None   (* Effort control is not supported. *)
        else None in
      match jointControlType with
      | None => None
      | Some jointControlType =>
          Some (joint_command_loop Joints jointControlType jointState 0
                  (length (FROSJointState.name jointState)) ∅,
                jointControlType)
      end
  end.

(** ** The mesh actor: creating mesh components (RRMeshActor.h) *)

(** The members of [ARRMeshActor] that [CreateMeshComponentList] and
    [GetBaseMeshMaterial] touch.  Components are engine objects, known by
    their identity only; [DestroyedComponents] collects the components on
    which [DestroyComponent] has been called. *)
Record ARRMeshActorMeshes (Component : Type) : Type :=
  { MeshCompList : list Component;
    BaseMeshComp : option Component;
    RootComponent : option Component;
    DestroyedComponents : list Component }.

Arguments MeshCompList {Component} _.
Arguments BaseMeshComp {Component} _.
Arguments RootComponent {Component} _.
Arguments DestroyedComponents {Component} _.

Section MeshCreation.

Context {Component : Type} `{EqDecision Component}.

(** [FPaths::IsRelative] and [FPaths::FileExists]. *)
Variable IsRelative : string -> bool.
Variable FileExists : string -> bool.

(** [URRUObjectUtils::CreateMeshComponent<TMeshComp>], by the mesh name,
    the number that goes into the component's name
    ([MeshCompList.Num()]) and the relative transform; [None] is a null
    result. *)
Variable CreateMeshComponent : string -> nat -> FTransform.t -> option Component.

(** [TMeshComp::InitializeMesh]. *)
Variable InitializeMesh : Component -> string -> bool.

(** [GetRelativeTransform().Equals(FTransform::Identity)]. *)
Variable RelativeTransformIsIdentity : Component -> bool.

(** [UMeshComponent::GetMaterial]. *)
Context {Material : Type}.
Variable GetMaterial : Component -> Z -> option Material.

(** [TArray::AddUnique]. *)
Definition AddUnique (c : Component) (l : list Component) : list Component :=
  if decide (c ∈ l) then l else l ++ [c].

(** One iteration of the loop of [CreateMeshComponentList], on the pair of
    [MeshCompList] and [addedMeshCompList]. *)
Definition create_mesh_step (InMeshRelTransf : list FTransform.t)
    (i : nat) (meshUniqueName : string)
    (st : list Component * list Component) : list Component * list Component :=
  let '(meshCompList, addedMeshCompList) := st in
  if negb (IsRelative meshUniqueName) && negb (FileExists meshUniqueName)
  then st   (* continue *)
  else
    let meshComp :=
      CreateMeshComponent meshUniqueName (length meshCompList)
        (default FTransform.Identity (InMeshRelTransf !! i)) in
    let addedMeshCompList :=
      match meshComp with
      | Some c =>
          if InitializeMesh c meshUniqueName
          then AddUnique c addedMeshCompList
          else addedMeshCompList
      | None => addedMeshCompList
      end in
    (* [MeshCompList] <- [addedMeshCompList] *)
    (meshCompList ++ addedMeshCompList, addedMeshCompList).

(** The loop over [InMeshUniqueNameList], from index [i]. *)
Fixpoint create_mesh_loop (InMeshRelTransf : list FTransform.t)
    (i : nat) (names : list string)
    (st : list Component * list Component) : list Component * list Component :=
  match names with
  | [] => st
  | meshUniqueName :: rest =>
      create_mesh_loop InMeshRelTransf (S i) rest
        (create_mesh_step InMeshRelTransf i meshUniqueName st)
  end.

(** The end of [CreateMeshComponentList]: change RootComponent ->
    BaseMeshComp. *)
Definition choose_base_mesh (a : ARRMeshActorMeshes Component)
  : ARRMeshActorMeshes Component :=
  match BaseMeshComp a, MeshCompList a with
  | None, first :: _ =>
      if RelativeTransformIsIdentity first then
        let oldRoot := RootComponent a in
        {| MeshCompList := MeshCompList a;
           BaseMeshComp := Some first;
           RootComponent := Some first;
           DestroyedComponents :=
             match oldRoot with
             | Some r => DestroyedComponents a ++ [r]
             | None => DestroyedComponents a
             end |}
      else
        {| MeshCompList := MeshCompList a;
           BaseMeshComp := Some first;
           RootComponent := RootComponent a;
           DestroyedComponents := DestroyedComponents a |}
  | _, _ => a
  end.

(** [ARRMeshActor::CreateMeshComponentList]: the actor afterwards and the
    returned list; [None] when one of the two [verify] checks fails. *)
Definition CreateMeshComponentList (InMeshUniqueNameList : list string)
    (InMeshRelTransf : list FTransform.t) (InMaterialNameList : list string)
    (a : ARRMeshActorMeshes Component)
  : option (ARRMeshActorMeshes Component * list Component) :=
  if (0 <? length InMeshRelTransf)%nat &&
     negb (length InMeshRelTransf =? length InMeshUniqueNameList)%nat
  then None
  else if (0 <? length InMaterialNameList)%nat &&
          negb (length InMaterialNameList =? length InMeshUniqueNameList)%nat
  then None
  else
    let '(meshCompList, addedMeshCompList) :=
      create_mesh_loop InMeshRelTransf 0 InMeshUniqueNameList
        (MeshCompList a, []) in
    let a := {| MeshCompList := meshCompList;
                BaseMeshComp := BaseMeshComp a;
                RootComponent := RootComponent a;
                DestroyedComponents := DestroyedComponents a |} in
    Some (choose_base_mesh a, addedMeshCompList).

(** A component that was created for one of the names and whose mesh was
    initialised. *)
Definition created_for (names : list string) (c : Component) : Prop :=
  exists (meshUniqueName : string) (number : nat) (relTransf : FTransform.t),
    meshUniqueName ∈ names /\
    CreateMeshComponent meshUniqueName number relTransf = Some c /\
    InitializeMesh c meshUniqueName = true.

(** What holds of the list of the actor and of the list being returned,
    relative to the list [l0] the actor started with. *)
Definition creation_invariant (all : list string) (l0 : list Component)
    (st : list Component * list Component) : Prop :=
  NoDup st.2 /\
  l0 `prefix_of` st.1 /\
  (forall c, c ∈ st.2 -> created_for all c) /\
  (forall c, c ∈ st.2 -> c ∈ st.1) /\
  (forall c, c ∈ st.1 -> c ∈ l0 \/ c ∈ st.2).

(** [ARRMeshActor::GetBaseMeshMaterial]. *)
Definition GetBaseMeshMaterial (InMaterialIndex : Z)
    (a : ARRMeshActorMeshes Component) : option Material :=
  match BaseMeshComp a with
  | Some base => GetMaterial base InMaterialIndex
  | None => None
  end.

End MeshCreation.

(** ** Further predicates *)

(** The frame ids of the message are those of the component. *)
Definition frame_ids_in_sync (s : URRBaseOdomComponent) : Prop :=
  HeaderFrameId (Header (OdomData s)) = FrameId s /\
  OdomChildFrameId (OdomData s) = ChildFrameId s.

(** The cells of a row-major 6x6 matrix that lie on its diagonal. *)
Definition is_diagonal_index (i : nat) : bool :=
  bool_decide (i ∈ [0; 7; 14; 21; 28; 35]%nat).

(** An explicit (re-)initialisation. *)
Definition is_CallInitOdom (c : Call) : bool :=
  match c with
  | CallInitOdom _ => true
  | _ => false
  end.

(** The drift of the estimate: how far the noisy position is from the
    true one. *)
Definition position_drift (s : URRBaseOdomComponent) : FVector.t :=
  FVector.sub (FTransform.Translation (PreviousNoisyTransform s))
              (FTransform.Translation (PreviousTransform s)).

(** The position noise of one update: the two draws in x and y, nothing
    in z, switched by [bWithNoise]. *)
Definition position_noise (w : Tick) (s : URRBaseOdomComponent) : FVector.t :=
  FVector.scale (bool_to_float (bWithNoise s))
    (FVector.Make (DrawPositionX w) (DrawPositionY w) 0).

(** The vertical drift of an initialised component is zero. *)
Definition planar_invariant (s : URRBaseOdomComponent) : Prop :=
  bIsOdomInitialized s = true -> FVector.Z (position_drift s) = 0.

(** With the source WORLD the reference transform of an initialised
    component is at the world origin. *)
Definition world_invariant (s : URRBaseOdomComponent) : Prop :=
  OdomSource s = WORLD /\
  (bIsOdomInitialized s = true ->
   FTransform.Rotation (InitialTransform s) = FQuat.Identity /\
   FTransform.Translation (InitialTransform s) = FVector.ZeroVector).

(** The ROS-to-engine conversion of a joint input: metres to centimetres
    for a joint with one linear degree of freedom, radians to degrees for
    one with one rotational degree of freedom, nothing otherwise. *)
Definition converted_joint_input (joint : URobotVehicleJoint) (v : float)
  : float :=
  if (LinearDOF joint =? 1)%Z then v * 100
  else if (RotationalDOF joint =? 1)%Z then v * (180 / M_PI)
  else v.

(** The array a control type reads. *)
Definition joint_values (jointControlType : EJointControlType)
    (jointState : FROSJointState.t) : list float :=
  match jointControlType with
  | POSITION => FROSJointState.position jointState
  | VELOCITY => FROSJointState.velocity jointState
  | EFFORT => FROSJointState.effort jointState
  end.

(** ** Further concrete inputs *)

(** A vehicle with a prismatic lift, a revolute arm and a fixed mast, keyed
    by the lower-case names. *)
Definition example_Joints : gmap string URobotVehicleJoint :=
  <["lift" := {| LinearDOF := 1; RotationalDOF := 0 |}]>
    (<["arm" := {| LinearDOF := 0; RotationalDOF := 1 |}]>
       (<["mast" := {| LinearDOF := 0; RotationalDOF := 0 |}]> ∅)).

(** A position command for the lift, an unknown joint and the lift again,
    in capitals. *)
Definition example_jointState : FROSJointState.t :=
  {| FROSJointState.name := ["lift"; "gripper"; "LIFT"];
     FROSJointState.position := [1; 5; 2];
     FROSJointState.velocity := [];
     FROSJointState.effort := [] |}.

(** Mesh components numbered by the running number of their name; every
    path is relative, every creation and initialisation succeeds. *)
Definition example_CreateMeshComponent (meshUniqueName : string) (number : nat)
    (relTransf : FTransform.t) : option nat :=
  Some number.

Definition example_meshes : ARRMeshActorMeshes nat :=
  {| MeshCompList := []; BaseMeshComp := None;
     RootComponent := Some 1000%nat; DestroyedComponents := [] |}.

(** * Properties *)

(** ** Quaternion and vector algebra *)

Lemma FVector_eq (a b : FVector.t) :
  FVector.X a = FVector.X b -> FVector.Y a = FVector.Y b ->
  FVector.Z a = FVector.Z b -> a = b.
Proof. destruct a, b; simpl; intros; subst; reflexivity. Qed.

Lemma FQuat_eq (a b : FQuat.t) :
  FQuat.X a = FQuat.X b -> FQuat.Y a = FQuat.Y b ->
  FQuat.Z a = FQuat.Z b -> FQuat.W a = FQuat.W b -> a = b.
Proof. destruct a, b; simpl; intros; subst; reflexivity. Qed.

Lemma SizeSquared_nonneg (q : FQuat.t) : 0 <= FQuat.SizeSquared q.
Proof. unfold FQuat.SizeSquared. nra. Qed.

(** The norm is multiplicative. *)
Lemma SizeSquared_mul (a b : FQuat.t) :
  FQuat.SizeSquared (FQuat.mul a b) = FQuat.SizeSquared a * FQuat.SizeSquared b.
Proof. unfold FQuat.SizeSquared, FQuat.mul; simpl. ring. Qed.

Lemma SizeSquared_Inverse (q : FQuat.t) :
  FQuat.SizeSquared (FQuat.Inverse q) = FQuat.SizeSquared q.
Proof. unfold FQuat.SizeSquared, FQuat.Inverse; simpl. ring. Qed.

Lemma IsUnit_Identity : IsUnit FQuat.Identity.
Proof. unfold IsUnit, FQuat.SizeSquared; simpl. ring. Qed.

Lemma IsUnit_mul (a b : FQuat.t) : IsUnit a -> IsUnit b -> IsUnit (FQuat.mul a b).
Proof. unfold IsUnit. intros Ha Hb. rewrite SizeSquared_mul, Ha, Hb. ring. Qed.

Lemma IsUnit_Inverse (q : FQuat.t) : IsUnit q -> IsUnit (FQuat.Inverse q).
Proof. unfold IsUnit. now rewrite SizeSquared_Inverse. Qed.

Lemma IsUnit_Size (q : FQuat.t) : IsUnit q <-> FQuat.Size q = 1.
Proof.
  unfold IsUnit, FQuat.Size. split; intros Hq.
  - rewrite Hq. apply sqrt_1.
  - pose proof (SizeSquared_nonneg q) as Hnn.
    rewrite <- (sqrt_sqrt _ Hnn), Hq. ring.
Qed.

Lemma SMALL_NUMBER_pos : 0 < SMALL_NUMBER.
Proof. unfold SMALL_NUMBER. lra. Qed.

(** [Normalize] always yields a unit quaternion: either the scaled input or
    the identity. *)
Lemma IsUnit_Normalize (q : FQuat.t) : IsUnit (FQuat.Normalize q).
Proof.
  unfold FQuat.Normalize.
  destruct (Rle_dec SMALL_NUMBER (FQuat.SizeSquared q)) as [Hle | Hlt];
    [| apply IsUnit_Identity].
  pose proof SMALL_NUMBER_pos as Hpos.
  assert (Hss : 0 < FQuat.SizeSquared q) by lra.
  pose proof (sqrt_lt_R0 _ Hss) as Hsq.
  pose proof (sqrt_sqrt (FQuat.SizeSquared q) (Rlt_le _ _ Hss)) as Hmul.
  unfold IsUnit, InvSqrt.
  unfold FQuat.SizeSquared at 1; simpl.
  set (r := sqrt (FQuat.SizeSquared q)) in *.
  replace (FQuat.X q * (1 / r) * (FQuat.X q * (1 / r)) +
           FQuat.Y q * (1 / r) * (FQuat.Y q * (1 / r)) +
           FQuat.Z q * (1 / r) * (FQuat.Z q * (1 / r)) +
           FQuat.W q * (1 / r) * (FQuat.W q * (1 / r)))
    with (FQuat.SizeSquared q / (r * r))
    by (unfold FQuat.SizeSquared; field; lra).
  rewrite Hmul. field. lra.
Qed.

(** [Normalize] leaves a unit quaternion as it is. *)
Lemma Normalize_unit (q : FQuat.t) : IsUnit q -> FQuat.Normalize q = q.
Proof.
  unfold IsUnit, FQuat.Normalize. intros Hq. rewrite Hq.
  destruct (Rle_dec SMALL_NUMBER 1) as [_ | Hn];
    [| exfalso; apply Hn; unfold SMALL_NUMBER; lra].
  unfold InvSqrt. rewrite sqrt_1.
  apply FQuat_eq; simpl; field.
Qed.

Lemma mul_Identity_l (q : FQuat.t) : FQuat.mul FQuat.Identity q = q.
Proof. apply FQuat_eq; simpl; ring. Qed.

(** A unit quaternion times its conjugate is the identity. *)
Lemma mul_Inverse_unit (q : FQuat.t) :
  IsUnit q -> FQuat.mul q (FQuat.Inverse q) = FQuat.Identity.
Proof.
  unfold IsUnit, FQuat.SizeSquared. intros Hq.
  apply FQuat_eq; simpl; try ring. lra.
Qed.

Lemma Int_part_small (x : float) : 0 <= x < 1 -> Int_part x = 0%Z.
Proof. intros Hx. symmetry. apply Int_part_spec. simpl. lra. Qed.

Lemma TruncToFloat_small (x : float) : 0 <= x < 1 -> TruncToFloat x = 0.
Proof.
  intros Hx. unfold TruncToFloat.
  destruct (Rle_dec 0 x) as [_ | Hn]; [| lra].
  now rewrite Int_part_small.
Qed.

(** Angles of less than a turn are not unwound. *)
Lemma Fmod_small (x : float) : 0 <= x < 360 -> Fmod x 360 = x.
Proof.
  intros Hx. unfold Fmod. rewrite TruncToFloat_small; [ring |].
  split; [apply Rmult_le_pos; lra | lra].
Qed.

(** The quaternion of the zero rotator is the identity. *)
Lemma Quaternion_zero : FRotator.Quaternion (FRotator.Make 0 0 0) = FQuat.Identity.
Proof.
  unfold FRotator.Quaternion; simpl.
  rewrite Fmod_small by lra.
  replace (0 * (PI / 180 / 2)) with 0 by field.
  rewrite sin_0, cos_0. apply FQuat_eq; simpl; ring.
Qed.

(** ** Initialisation *)

Section OdometryProperties.

Context `{Externals}.

Lemma InitOdom_initialized (w : Tick) (s : URRBaseOdomComponent) :
  bIsOdomInitialized (InitOdom w s) = true.
Proof. unfold InitOdom; simpl. destruct (OdomSource s); reflexivity. Qed.

Lemma InitOdom_bWithNoise (w : Tick) (s : URRBaseOdomComponent) :
  bWithNoise (InitOdom w s) = bWithNoise s.
Proof. unfold InitOdom; simpl. destruct (OdomSource s); reflexivity. Qed.

Lemma InitOdom_RootOffset (w : Tick) (s : URRBaseOdomComponent) :
  RootOffset (InitOdom w s) = RootOffset s.
Proof. unfold InitOdom; simpl. destruct (OdomSource s); reflexivity. Qed.

(** [InitOdom] emits the reference transform itself, and starts both
    running transforms from it. *)
Lemma InitOdom_emits_InitialTransform (w : Tick) (s : URRBaseOdomComponent) :
  let s' := InitOdom w s in
  Position (PosePose (Pose (OdomData s'))) =
    FTransform.Translation (InitialTransform s') /\
  Orientation (PosePose (Pose (OdomData s'))) =
    FTransform.Rotation (InitialTransform s') /\
  PreviousTransform s' = InitialTransform s' /\
  PreviousNoisyTransform s' = InitialTransform s'.
Proof. unfold InitOdom; simpl. destruct (OdomSource s); simpl; auto. Qed.

Lemma InitOdom_encoder (w : Tick) (s : URRBaseOdomComponent) :
  OdomSource s = ENCODER ->
  FTransform.Translation (InitialTransform (InitOdom w s)) = ActorLocation w /\
  FTransform.Rotation (InitialTransform (InitOdom w s)) = ActorQuat w.
Proof. intros Hsrc. unfold InitOdom; simpl. rewrite Hsrc. simpl. auto. Qed.

Lemma InitOdom_world (w : Tick) (s : URRBaseOdomComponent) :
  OdomSource s = WORLD ->
  InitialTransform (InitOdom w s) =
    FTransform.Make FQuat.Identity FVector.ZeroVector
      (FTransform.Scale3D (InitialTransform s)).
Proof. intros Hsrc. unfold InitOdom; simpl. rewrite Hsrc. reflexivity. Qed.

(** C8. With the odometry source WORLD, [InitOdom] sets [InitialTransform]
    to zero translation and identity rotation, whatever the ground-truth
    pose of the body is. *)
Theorem InitOdom_world_identity (w : Tick) (s : URRBaseOdomComponent) :
  OdomSource s = WORLD ->
  FTransform.Translation (InitialTransform (InitOdom w s)) = FVector.ZeroVector /\
  FTransform.Rotation (InitialTransform (InitOdom w s)) = FQuat.Identity.
Proof. intros Hsrc. rewrite (InitOdom_world w s Hsrc). split; reflexivity. Qed.

End OdometryProperties.

Lemma InitOdom_world_identity_witness :
  OdomSource (example_component WORLD false) = WORLD /\
  FTransform.Translation
    (InitialTransform
       (InitOdom (example_tick 0 0 0 0)
          (example_component WORLD false))) = FVector.ZeroVector /\
  FTransform.Rotation
    (InitialTransform
       (InitOdom (example_tick 0 0 0 0)
          (example_component WORLD false))) = FQuat.Identity.
Proof.
  split; [reflexivity |].
  apply InitOdom_world_identity. reflexivity.
Defined.

(** C1. With the odometry source ENCODER and a body that starts at
    (1, 2, 3), turned half a turn about the vertical axis, [InitOdom] emits
    the body's world pose and not the origin; the first [UpdateOdom] of the
    same, unmoved body emits the origin. *)
Theorem InitOdom_encoder_emits_world_pose :
  let s := example_component ENCODER false in
  let w := example_tick 0 0 0 0 in
  let s0 := InitOdom w s in
  let s1 := @UpdateOdom example_externals (example_tick 1 0 0 0) 1 s in
  Position (PosePose (Pose (OdomData s0))) = FVector.Make 1 2 3 /\
  Orientation (PosePose (Pose (OdomData s0))) = FQuat.Make 0 0 1 0 /\
  Position (PosePose (Pose (OdomData s0))) <> FVector.ZeroVector /\
  Orientation (PosePose (Pose (OdomData s0))) <> FQuat.Identity /\
  Position (PosePose (Pose (OdomData s1))) = FVector.ZeroVector /\
  Orientation (PosePose (Pose (OdomData s1))) = FQuat.Identity.
Proof.
  cbv zeta.
  split; [reflexivity |]. split; [reflexivity |].
  split. { intros E. apply (f_equal FVector.X) in E. simpl in E. lra. }
  split. { intros E. apply (f_equal FQuat.Z) in E. simpl in E. lra. }
  unfold UpdateOdom, ensure_initialized.
  change (bIsOdomInitialized (example_component ENCODER false)) with false.
  cbv iota.
  destruct (Rlt_dec 1 float32_1e_9) as [Hlt | _];
    [unfold float32_1e_9 in Hlt; lra |].
  split.
  - apply FVector_eq; simpl; field.
  - unfold UpdateOdom_body, noiseRot; simpl.
    replace (0 * 0) with 0 by ring. rewrite Quaternion_zero.
    rewrite Normalize_unit.
    + apply FQuat_eq; simpl; ring.
    + unfold IsUnit, FQuat.SizeSquared; simpl. ring.
Qed.

(** ** One update *)

Section UpdateProperties.

Context `{Externals}.

(** What the body of [UpdateOdom] leaves in each member. *)
Lemma UpdateOdom_body_fields (w : Tick) (dt : float) (s : URRBaseOdomComponent) :
  let s' := UpdateOdom_body w dt s in
  PreviousNoisyTransform s' =
    FTransform.Make (noisy_rotation w s) (noisy_position w s)
      (FTransform.Scale3D (PreviousNoisyTransform s)) /\
  PreviousTransform s' =
    FTransform.Make (relative_rotation (InitialTransform s) w)
      (relative_position (InitialTransform s) w)
      (FTransform.Scale3D (PreviousTransform s)) /\
  Position (PosePose (Pose (OdomData s'))) =
    FVector.add (noisy_position w s) (FTransform.Translation (RootOffset s)) /\
  Orientation (PosePose (Pose (OdomData s'))) =
    FQuat.mul (noisy_rotation w s) (FTransform.Rotation (RootOffset s)) /\
  Linear (TwistTwist (Twist (OdomData s'))) =
    FVector.div
      (FQuat.UnrotateVector (noisy_rotation w s)
         (FVector.sub (noisy_position w s)
            (FTransform.Translation (PreviousNoisyTransform s)))) dt /\
  Angular (TwistTwist (Twist (OdomData s'))) =
    FVector.div
      (Euler (FQuat.GetNormalized
                (FQuat.mul (noisy_rotation w s)
                   (FQuat.Inverse
                      (FTransform.Rotation (PreviousNoisyTransform s)))))) dt.
Proof. cbv zeta. repeat split. Qed.

(** The members that the body of [UpdateOdom] does not write. *)
Lemma UpdateOdom_body_frame (w : Tick) (dt : float) (s : URRBaseOdomComponent) :
  let s' := UpdateOdom_body w dt s in
  PoseCovariance (Pose (OdomData s')) = PoseCovariance (Pose (OdomData s)) /\
  TwistCovariance (Twist (OdomData s')) = TwistCovariance (Twist (OdomData s)) /\
  InitialTransform s' = InitialTransform s /\
  RootOffset s' = RootOffset s /\
  bWithNoise s' = bWithNoise s /\
  bIsOdomInitialized s' = bIsOdomInitialized s /\
  LastUpdatedTime s' = LastUpdatedTime s.
Proof. cbv zeta. repeat split. Qed.

Lemma ensure_initialized_initialized (w : Tick) (s : URRBaseOdomComponent) :
  bIsOdomInitialized (ensure_initialized w s) = true.
Proof.
  unfold ensure_initialized.
  destruct (bIsOdomInitialized s) eqn:E; [exact E | apply InitOdom_initialized].
Qed.

Lemma ensure_initialized_id (w : Tick) (s : URRBaseOdomComponent) :
  bIsOdomInitialized s = true -> ensure_initialized w s = s.
Proof. unfold ensure_initialized. now intros ->. Qed.

(** An update that passes the elapsed-time guard runs the body on the
    (lazily) initialised state. *)
Lemma UpdateOdom_passes (w : Tick) (dt : float) (s : URRBaseOdomComponent) :
  ~ dt < 1e-9 ->
  UpdateOdom w dt s = UpdateOdom_body w dt (ensure_initialized w s).
Proof.
  intros Hdt. unfold UpdateOdom.
  destruct (Rlt_dec dt float32_1e_9) as [Hlt | _]; [| reflexivity].
  exfalso. apply Hdt. unfold float32_1e_9 in Hlt. lra.
Qed.

(** An update below the guard only performs the lazy initialisation. *)
Lemma UpdateOdom_skips (w : Tick) (dt : float) (s : URRBaseOdomComponent) :
  dt < float32_1e_9 -> UpdateOdom w dt s = ensure_initialized w s.
Proof.
  intros Hdt. unfold UpdateOdom.
  destruct (Rlt_dec dt float32_1e_9) as [_ | Hn]; [reflexivity | contradiction].
Qed.

Lemma UpdateOdom_initialized (w : Tick) (dt : float) (s : URRBaseOdomComponent) :
  bIsOdomInitialized (UpdateOdom w dt s) = true.
Proof.
  unfold UpdateOdom. destruct (Rlt_dec dt float32_1e_9).
  - apply ensure_initialized_initialized.
  - destruct (UpdateOdom_body_frame w dt (ensure_initialized w s))
      as (_ & _ & _ & _ & _ & -> & _).
    apply ensure_initialized_initialized.
Qed.

End UpdateProperties.

(** ** The elapsed-time guard *)

Section GuardProperties.

Context `{Externals}.

(** The guard value lies just below 1e-9. *)
Lemma float32_1e_9_bounds : 0 < float32_1e_9 < 1e-9.
Proof. unfold float32_1e_9. lra. Qed.

(** An update at or above the guard value runs the body. *)
Lemma UpdateOdom_at_guard (w : Tick) (dt : float) (s : URRBaseOdomComponent) :
  ~ dt < float32_1e_9 ->
  UpdateOdom w dt s = UpdateOdom_body w dt (ensure_initialized w s).
Proof.
  intros Hdt. unfold UpdateOdom.
  destruct (Rlt_dec dt float32_1e_9) as [Hlt | _]; [contradiction | reflexivity].
Qed.

(** C2 (as amended). For an initialised component, [UpdateOdom] with an
    elapsed time strictly below the single-precision value [1e-9f] changes
    nothing at all, so every field of [OdomData] and [LastUpdatedTime] keep
    their values; a [SensorUpdate] with [bManualUpdate] false whose elapsed
    time is strictly below [1e-9f] leaves every field of [OdomData] as it
    was and stores the current time in [LastUpdatedTime]; a [SensorUpdate]
    with [bManualUpdate] true changes nothing. *)
Theorem guard_skips_update (w : Tick) (s : URRBaseOdomComponent) :
  bIsOdomInitialized s = true ->
  (forall dt : float, dt < float32_1e_9 -> UpdateOdom w dt s = s) /\
  (bManualUpdate s = false ->
   TimeSeconds w - LastUpdatedTime s < float32_1e_9 ->
   OdomData (SensorUpdate w s) = OdomData s /\
   LastUpdatedTime (SensorUpdate w s) = TimeSeconds w) /\
  (bManualUpdate s = true -> SensorUpdate w s = s).
Proof.
  intros Hinit. split; [| split].
  - intros dt Hdt. rewrite UpdateOdom_skips by exact Hdt.
    now apply ensure_initialized_id.
  - intros Hman Hdt. unfold SensorUpdate. rewrite Hman.
    rewrite UpdateOdom_skips by exact Hdt.
    rewrite ensure_initialized_id by exact Hinit.
    split; reflexivity.
  - intros Hman. unfold SensorUpdate. now rewrite Hman.
Qed.

End GuardProperties.

(** An elapsed time of 2^-31 seconds, a single-precision value below the
    guard. *)
Lemma guard_skips_update_witness :
  let s := InitOdom (example_tick 0 0 0 0) (example_component ENCODER true) in
  let w := example_tick (1 / 2147483648) 0 0 0 in
  bIsOdomInitialized s = true /\
  ((forall dt : float,
       dt < float32_1e_9 -> @UpdateOdom example_externals w dt s = s) /\
   (bManualUpdate s = false ->
    TimeSeconds w - LastUpdatedTime s < float32_1e_9 ->
    OdomData (@SensorUpdate example_externals w s) = OdomData s /\
    LastUpdatedTime (@SensorUpdate example_externals w s) = TimeSeconds w) /\
   (bManualUpdate s = true -> @SensorUpdate example_externals w s = s)) /\
  bManualUpdate s = false /\
  TimeSeconds w - LastUpdatedTime s < float32_1e_9.
Proof.
  cbv zeta. split; [reflexivity |]. split.
  - apply (@guard_skips_update example_externals). reflexivity.
  - split; [reflexivity |]. simpl. unfold float32_1e_9. lra.
Defined.

(** C2 (as stated) fails. With an elapsed time of exactly [1e-9f], which is
    not above 1e-9, the guard does not fire and the emitted position goes
    from the origin to the body's position (1, 2, 3); and a [SensorUpdate]
    with an elapsed time of 2^-31 seconds moves [LastUpdatedTime] from 0 to
    2^-31. *)
Lemma guard_boundary_counterexample :
  let s := InitOdom (example_tick 0 0 0 0) (example_component WORLD false) in
  (bIsOdomInitialized s = true /\ float32_1e_9 <= 1e-9 /\
   OdomData (@UpdateOdom example_externals (example_tick 0 0 0 0) float32_1e_9 s)
     <> OdomData s) /\
  (bIsOdomInitialized s = true /\
   TimeSeconds (example_tick (1 / 2147483648) 0 0 0) - LastUpdatedTime s
     <= 1e-9 /\
   LastUpdatedTime
     (@SensorUpdate example_externals (example_tick (1 / 2147483648) 0 0 0) s)
     <> LastUpdatedTime s).
Proof.
  cbv zeta. split.
  - split; [reflexivity |]. split; [unfold float32_1e_9; lra |].
    rewrite UpdateOdom_at_guard by lra.
    intros E.
    apply (f_equal (fun o => FVector.X (Position (PosePose (Pose o))))) in E.
    simpl in E. lra.
  - split; [reflexivity |]. split; [simpl; lra |].
    unfold SensorUpdate. simpl. lra.
Qed.

(** ** Covariances *)

Lemma write_covariances_fixed (o : FROSOdometry) :
  has_covariance_cells o -> has_fixed_covariances (write_covariances o).
Proof.
  destruct o as [h c [pp pc] [tt tc]].
  unfold has_covariance_cells, has_fixed_covariances; simpl.
  intros [Hp Ht].
  spell_out_cells pc Hp. spell_out_cells tc Ht.
  split; reflexivity.
Qed.

Lemma write_covariances_cells (o : FROSOdometry) :
  has_covariance_cells o -> has_covariance_cells (write_covariances o).
Proof.
  unfold has_covariance_cells. destruct o as [h c [pp pc] [tt tc]]; simpl.
  rewrite !length_insert. auto.
Qed.

Section CovarianceProperties.

Context `{Externals}.

Lemma InitOdom_covariances (w : Tick) (s : URRBaseOdomComponent) :
  has_covariance_cells (OdomData s) ->
  has_covariance_cells (OdomData (InitOdom w s)) /\
  has_fixed_covariances (OdomData (InitOdom w s)).
Proof.
  intros Hc.
  assert (Hp : PoseCovariance (Pose (OdomData (InitOdom w s))) =
               PoseCovariance (Pose (write_covariances (OdomData s))))
    by (unfold InitOdom; simpl; destruct (OdomSource s); reflexivity).
  assert (Ht : TwistCovariance (Twist (OdomData (InitOdom w s))) =
               TwistCovariance (Twist (write_covariances (OdomData s))))
    by (unfold InitOdom; simpl; destruct (OdomSource s); reflexivity).
  unfold has_covariance_cells, has_fixed_covariances.
  rewrite Hp, Ht.
  split; [now apply write_covariances_cells | now apply write_covariances_fixed].
Qed.

Lemma InitOdom_invariant (w : Tick) (s : URRBaseOdomComponent) :
  has_covariance_cells (OdomData s) -> covariance_invariant (InitOdom w s).
Proof.
  intros Hc. destruct (InitOdom_covariances w s Hc). split; auto.
Qed.

Lemma ensure_initialized_invariant (w : Tick) (s : URRBaseOdomComponent) :
  covariance_invariant s -> covariance_invariant (ensure_initialized w s).
Proof.
  intros Hinv. unfold ensure_initialized.
  destruct (bIsOdomInitialized s); [exact Hinv |].
  apply InitOdom_invariant, Hinv.
Qed.

Lemma UpdateOdom_invariant (w : Tick) (dt : float) (s : URRBaseOdomComponent) :
  covariance_invariant s -> covariance_invariant (UpdateOdom w dt s).
Proof.
  intros Hinv. apply (ensure_initialized_invariant w) in Hinv.
  unfold UpdateOdom. destruct (Rlt_dec dt float32_1e_9); [exact Hinv |].
  destruct (UpdateOdom_body_frame w dt (ensure_initialized w s))
    as (Hp & Ht & _ & _ & _ & Hi & _).
  unfold covariance_invariant, has_covariance_cells, has_fixed_covariances in *.
  rewrite Hp, Ht, Hi. exact Hinv.
Qed.

Lemma call_invariant (c : Call) (s : URRBaseOdomComponent) :
  covariance_invariant s -> covariance_invariant (call c s).
Proof.
  intros Hinv. destruct c as [w | w dt | w | f c]; cbn [call].
  - apply InitOdom_invariant, Hinv.
  - now apply UpdateOdom_invariant.
  - unfold SensorUpdate. destruct (bManualUpdate s); [exact Hinv |].
    apply (UpdateOdom_invariant w (TimeSeconds w - LastUpdatedTime s)) in Hinv.
    exact Hinv.
  - exact Hinv.
Qed.

Lemma run_calls_invariant (cs : list Call) (s : URRBaseOdomComponent) :
  covariance_invariant s -> covariance_invariant (run_calls cs s).
Proof.
  revert s. induction cs as [| c cs IH]; intros s Hinv; simpl.
  - exact Hinv.
  - apply IH, call_invariant, Hinv.
Qed.

Lemma call_keeps_initialized (c : Call) (s : URRBaseOdomComponent) :
  bIsOdomInitialized s = true -> bIsOdomInitialized (call c s) = true.
Proof.
  intros Hinit. destruct c as [w | w dt | w | f c]; cbn [call].
  - apply InitOdom_initialized.
  - apply UpdateOdom_initialized.
  - unfold SensorUpdate. destruct (bManualUpdate s); [exact Hinit |].
    apply (UpdateOdom_initialized w (TimeSeconds w - LastUpdatedTime s) s).
  - exact Hinit.
Qed.

Lemma run_calls_keeps_initialized (cs : list Call) (s : URRBaseOdomComponent) :
  bIsOdomInitialized s = true -> bIsOdomInitialized (run_calls cs s) = true.
Proof.
  revert s. induction cs as [| c cs IH]; intros s Hinit; simpl.
  - exact Hinit.
  - apply IH, call_keeps_initialized, Hinit.
Qed.

(** The two single-precision literals are close to, but not, the decimal
    values they are written as. *)
Lemma float32_literal_bounds :
  1e-5 - 3e-13 < float32_1e_5 < 1e-5 /\ 1e-3 < float32_1e_3 < 1e-3 + 5e-11.
Proof. unfold float32_1e_5, float32_1e_3. lra. Qed.

(** C5 (as amended). Starting from a component that has not been
    initialised, after any run of calls ([InitOdom], [UpdateOdom],
    [SensorUpdate], [SetFrameIds], with any inputs), once the component is
    initialised the pose covariance diagonal and the twist covariance
    diagonal are both [1e-05f, 1e-05f, 1e12, 1e12, 1e12, 1e-03f], the first
    two and the last being the single-precision values that the code
    writes: within 3e-13 below 1e-5 and within 5e-11 above 1e-3. *)
Theorem covariances_fixed (cs : list Call) (s : URRBaseOdomComponent) :
  bIsOdomInitialized s = false ->
  has_covariance_cells (OdomData s) ->
  bIsOdomInitialized (run_calls cs s) = true ->
  has_fixed_covariances (OdomData (run_calls cs s)) /\
  (1e-5 - 3e-13 < float32_1e_5 < 1e-5 /\ 1e-3 < float32_1e_3 < 1e-3 + 5e-11).
Proof.
  intros Hfresh Hcells Hinit. split; [| exact float32_literal_bounds].
  apply (run_calls_invariant cs s); [| exact Hinit].
  split; [exact Hcells |]. rewrite Hfresh. discriminate.
Qed.

End CovarianceProperties.

Lemma covariances_fixed_witness :
  let s := example_component ENCODER true in
  let cs := [CallUpdateOdom (example_tick 1 0.5 (-0.25) 3) 1;
             CallSetFrameIds "map" "base_link";
             CallSensorUpdate (example_tick 2 0.125 0 (-7))] in
  bIsOdomInitialized s = false /\
  has_covariance_cells (OdomData s) /\
  bIsOdomInitialized (@run_calls example_externals cs s) = true /\
  has_fixed_covariances (OdomData (@run_calls example_externals cs s)).
Proof.
  cbv zeta.
  assert (Hinit : bIsOdomInitialized
            (@run_calls example_externals
               [CallUpdateOdom (example_tick 1 0.5 (-0.25) 3) 1;
                CallSetFrameIds "map" "base_link";
                CallSensorUpdate (example_tick 2 0.125 0 (-7))]
               (example_component ENCODER true)) = true).
  { apply (@run_calls_keeps_initialized example_externals
             [CallSetFrameIds "map" "base_link";
              CallSensorUpdate (example_tick 2 0.125 0 (-7))]).
    apply UpdateOdom_initialized. }
  split; [reflexivity |]. split; [split; reflexivity |]. split; [exact Hinit |].
  apply (@covariances_fixed example_externals
           [CallUpdateOdom (example_tick 1 0.5 (-0.25) 3) 1;
            CallSetFrameIds "map" "base_link";
            CallSensorUpdate (example_tick 2 0.125 0 (-7))]
           (example_component ENCODER true) eq_refl (conj eq_refl eq_refl) Hinit).
Defined.

(** C5 (as stated) fails. Right after [InitOdom] the first cell of either
    diagonal holds the single-precision value [1e-05f], which is below
    1e-5, so neither diagonal is the decimal list
    [1e-5, 1e-5, 1e12, 1e12, 1e12, 1e-3]. *)
Lemma covariances_decimal_counterexample :
  let s := InitOdom (example_tick 0 0 0 0) (example_component ENCODER true) in
  bIsOdomInitialized s = true /\
  diagonal (PoseCovariance (Pose (OdomData s))) <> decimal_diagonal /\
  diagonal (TwistCovariance (Twist (OdomData s))) <> decimal_diagonal.
Proof.
  cbv zeta. split; [reflexivity |].
  split; intros E; apply (f_equal (fun d => d !! 0%nat)) in E; simpl in E;
    injection E as E; unfold float32_1e_5 in E; lra.
Qed.

(** ** Orientation, twist and mount offset *)

Section EmittedPoseProperties.

Context `{Externals}.

Lemma ensure_initialized_RootOffset (w : Tick) (s : URRBaseOdomComponent) :
  RootOffset (ensure_initialized w s) = RootOffset s.
Proof.
  unfold ensure_initialized.
  destruct (bIsOdomInitialized s); [reflexivity | apply InitOdom_RootOffset].
Qed.

Lemma IsUnit_noisy_rotation (w : Tick) (s : URRBaseOdomComponent) :
  IsUnit (noisy_rotation w s).
Proof. apply IsUnit_Normalize. Qed.

(** C6. After every [UpdateOdom] that passes the elapsed-time guard, the
    noisy rotation that is stored is of unit norm, and so is the emitted
    orientation, its product with the (unit) rotation of the root
    offset. *)
Theorem emitted_orientation_unit (w : Tick) (dt : float)
    (s : URRBaseOdomComponent) :
  ~ dt < 1e-9 ->
  IsUnit (FTransform.Rotation (RootOffset s)) ->
  let s' := UpdateOdom w dt s in
  FQuat.Size (FTransform.Rotation (PreviousNoisyTransform s')) = 1 /\
  FQuat.Size (Orientation (PosePose (Pose (OdomData s')))) = 1.
Proof.
  intros Hdt Hroot. cbv zeta. rewrite UpdateOdom_passes by exact Hdt.
  destruct (UpdateOdom_body_fields w dt (ensure_initialized w s))
    as (Hn & _ & _ & Ho & _).
  rewrite Hn, Ho. cbn [FTransform.Rotation].
  split; apply IsUnit_Size.
  - apply IsUnit_noisy_rotation.
  - apply IsUnit_mul; [apply IsUnit_noisy_rotation |].
    now rewrite ensure_initialized_RootOffset.
Qed.

Lemma ensure_initialized_set_RootOffset (w : Tick) (r : FTransform.t)
    (s : URRBaseOdomComponent) :
  ensure_initialized w (set_RootOffset r s) =
  set_RootOffset r (ensure_initialized w s).
Proof.
  unfold ensure_initialized. cbn [set_RootOffset bIsOdomInitialized].
  destruct (bIsOdomInitialized s); [reflexivity |].
  unfold InitOdom; simpl. destruct (OdomSource s); reflexivity.
Qed.

(** C7. In an update that passes the guard, the linear twist is the step
    of the noisy position un-rotated by the new noisy orientation, the one
    stored before the root offset is applied, over the elapsed time; the
    angular twist is computed from the same orientation; the emitted
    orientation is that orientation multiplied on the right by the root
    offset's rotation; and the twist is the same whatever the root offset
    is. *)
Theorem twist_before_root_offset (w : Tick) (dt : float)
    (s : URRBaseOdomComponent) :
  ~ dt < 1e-9 ->
  let s0 := ensure_initialized w s in
  let s' := UpdateOdom w dt s in
  let pos := FTransform.Translation (PreviousNoisyTransform s') in
  let rot := FTransform.Rotation (PreviousNoisyTransform s') in
  let previousEstimatedPos := FTransform.Translation (PreviousNoisyTransform s0) in
  let previousEstimatedRot := FTransform.Rotation (PreviousNoisyTransform s0) in
  Linear (TwistTwist (Twist (OdomData s'))) =
    FVector.div
      (FQuat.UnrotateVector rot (FVector.sub pos previousEstimatedPos)) dt /\
  Angular (TwistTwist (Twist (OdomData s'))) =
    FVector.div
      (Euler (FQuat.GetNormalized
                (FQuat.mul rot (FQuat.Inverse previousEstimatedRot)))) dt /\
  Orientation (PosePose (Pose (OdomData s'))) =
    FQuat.mul rot (FTransform.Rotation (RootOffset s)) /\
  forall r : FTransform.t,
    TwistTwist (Twist (OdomData (UpdateOdom w dt (set_RootOffset r s)))) =
    TwistTwist (Twist (OdomData s')).
Proof.
  intros Hdt. cbv zeta.
  rewrite UpdateOdom_passes by exact Hdt.
  split; [reflexivity |]. split; [reflexivity |]. split.
  - destruct (UpdateOdom_body_fields w dt (ensure_initialized w s))
      as (Hn & _ & _ & Ho & _).
    rewrite Hn, Ho. cbn [FTransform.Rotation].
    now rewrite ensure_initialized_RootOffset.
  - intros r. rewrite UpdateOdom_passes by exact Hdt.
    rewrite ensure_initialized_set_RootOffset. reflexivity.
Qed.

(** C9. In an update that passes the guard, the emitted position is the
    noisy position plus the root offset's translation as it is: the
    offset is not turned by the body's orientation.  For an initialised
    component the emitted position is the same for two bodies at the same
    place that face differently, and it can differ from the position of a
    sensor mounted at the offset on the body. *)
Theorem root_offset_translation_unrotated (w : Tick) (dt : float)
    (s : URRBaseOdomComponent) :
  ~ dt < 1e-9 ->
  let s' := UpdateOdom w dt s in
  Position (PosePose (Pose (OdomData s'))) =
    FVector.add (FTransform.Translation (PreviousNoisyTransform s'))
                (FTransform.Translation (RootOffset s)) /\
  (bIsOdomInitialized s = true ->
   forall w2 : Tick,
     ActorLocation w2 = ActorLocation w ->
     DrawPositionX w2 = DrawPositionX w ->
     DrawPositionY w2 = DrawPositionY w ->
     Position (PosePose (Pose (OdomData (UpdateOdom w2 dt s)))) =
     Position (PosePose (Pose (OdomData s')))) /\
  exists (s1 : URRBaseOdomComponent) (w1 : Tick),
    Position (PosePose (Pose (OdomData (UpdateOdom w1 1 s1)))) <>
    mounted_position (UpdateOdom w1 1 s1).
Proof.
  intros Hdt. cbv zeta. split; [| split].
  - rewrite UpdateOdom_passes by exact Hdt.
    destruct (UpdateOdom_body_fields w dt (ensure_initialized w s))
      as (Hn & _ & Hp & _).
    rewrite Hn, Hp. cbn [FTransform.Translation].
    now rewrite ensure_initialized_RootOffset.
  - intros Hinit w2 Hloc Hx Hy.
    rewrite !UpdateOdom_passes by exact Hdt.
    rewrite !ensure_initialized_id by exact Hinit.
    destruct (UpdateOdom_body_fields w dt s) as (_ & _ & -> & _).
    destruct (UpdateOdom_body_fields w2 dt s) as (_ & _ & -> & _).
    unfold noisy_position, relative_position. now rewrite Hloc, Hx, Hy.
  - exists (set_RootOffset
              (FTransform.Make FQuat.Identity (FVector.Make 1 0 0)
                 FVector.OneVector)
              (example_component WORLD false)),
           (example_tick 1 0 0 0).
    rewrite UpdateOdom_passes by lra.
    intros E. apply (f_equal FVector.X) in E.
    unfold mounted_position in E.
    destruct (UpdateOdom_body_fields (example_tick 1 0 0 0) 1
                (ensure_initialized (example_tick 1 0 0 0)
                   (set_RootOffset
                      (FTransform.Make FQuat.Identity (FVector.Make 1 0 0)
                         FVector.OneVector)
                      (example_component WORLD false))))
      as (Hn & _ & Hp & _).
    rewrite Hn, Hp in E. clear Hn Hp.
    cbn [FTransform.Translation FTransform.Rotation] in E.
    unfold noisy_rotation, noiseRot in E. simpl in E.
    replace (0 * 0) with 0 in E by ring.
    rewrite Quaternion_zero in E.
    rewrite Normalize_unit in E
      by (unfold IsUnit, FQuat.SizeSquared; simpl; ring).
    simpl in E. lra.
Qed.

End EmittedPoseProperties.

(** A mount offset of one unit forward, turned half a turn about the
    vertical axis, on a noisy component. *)
Lemma emitted_orientation_unit_witness :
  let s := set_RootOffset
             (FTransform.Make (FQuat.Make 0 0 1 0) (FVector.Make 1 0 0)
                FVector.OneVector)
             (example_component ENCODER true) in
  let w := example_tick 1 0.5 0.25 30 in
  ~ 1 < 1e-9 /\
  IsUnit (FTransform.Rotation (RootOffset s)) /\
  FQuat.Size (FTransform.Rotation
                (PreviousNoisyTransform (@UpdateOdom example_externals w 1 s))) = 1 /\
  FQuat.Size (Orientation
                (PosePose (Pose (OdomData (@UpdateOdom example_externals w 1 s))))) = 1.
Proof.
  cbv zeta.
  assert (Hdt : ~ 1 < 1e-9) by lra.
  assert (Hroot : IsUnit (FQuat.Make 0 0 1 0))
    by (unfold IsUnit, FQuat.SizeSquared; simpl; ring).
  split; [exact Hdt |]. split; [exact Hroot |].
  apply (@emitted_orientation_unit example_externals); [exact Hdt | exact Hroot].
Defined.

Lemma twist_before_root_offset_witness :
  let s := example_component ENCODER true in
  let w := example_tick 1 0.5 0.25 30 in
  ~ 0.5 < 1e-9 /\
  Orientation (PosePose (Pose (OdomData (@UpdateOdom example_externals w 0.5 s)))) =
    FQuat.mul
      (FTransform.Rotation
         (PreviousNoisyTransform (@UpdateOdom example_externals w 0.5 s)))
      (FTransform.Rotation (RootOffset s)).
Proof.
  cbv zeta.
  assert (Hdt : ~ 0.5 < 1e-9) by lra.
  split; [exact Hdt |].
  apply (@twist_before_root_offset example_externals
           (example_tick 1 0.5 0.25 30) 0.5 (example_component ENCODER true) Hdt).
Defined.

Lemma root_offset_translation_unrotated_witness :
  let s := set_RootOffset
             (FTransform.Make FQuat.Identity (FVector.Make 1 0 0)
                FVector.OneVector)
             (example_component WORLD true) in
  let w := example_tick 1 0.5 0.25 30 in
  ~ 1 < 1e-9 /\
  Position (PosePose (Pose (OdomData (@UpdateOdom example_externals w 1 s)))) =
    FVector.add
      (FTransform.Translation
         (PreviousNoisyTransform (@UpdateOdom example_externals w 1 s)))
      (FTransform.Translation (RootOffset s)).
Proof.
  cbv zeta.
  assert (Hdt : ~ 1 < 1e-9) by lra.
  split; [exact Hdt |].
  apply (@root_offset_translation_unrotated example_externals
           (example_tick 1 0.5 0.25 30) 1
           (set_RootOffset
              (FTransform.Make FQuat.Identity (FVector.Make 1 0 0)
                 FVector.OneVector)
              (example_component WORLD true)) Hdt).
Defined.

(** ** Rotational noise *)

(** A rotator with only its roll set turns about the forward axis. *)
Lemma Quaternion_roll_only (angle : float) :
  FRotator.Quaternion (FRotator.Make 0 0 angle) =
  FQuat.Make (- sin (Fmod angle 360 * (PI / 180 / 2))) 0 0
             (cos (Fmod angle 360 * (PI / 180 / 2))).
Proof.
  unfold FRotator.Quaternion; simpl.
  rewrite (Fmod_small 0) by lra.
  replace (0 * (PI / 180 / 2)) with 0 by field.
  rewrite sin_0, cos_0.
  apply FQuat_eq; simpl; ring.
Qed.

(** C4. The noise rotator of an update carries the drawn angle in its roll
    slot, with pitch and yaw zero; its quaternion has no component about the
    vertical (or the lateral) axis: it is a rotation about the forward axis
    by the drawn angle, not a yaw. *)
Theorem noise_rotation_is_roll (w : Tick) (s : URRBaseOdomComponent) :
  let angle := bool_to_float (bWithNoise s) * DrawRotation w in
  let q := FRotator.Quaternion (noiseRot w s) in
  FRotator.Pitch (noiseRot w s) = 0 /\
  FRotator.Yaw (noiseRot w s) = 0 /\
  FRotator.Roll (noiseRot w s) = angle /\
  FQuat.X q = - sin (Fmod angle 360 * (PI / 180 / 2)) /\
  FQuat.Y q = 0 /\
  FQuat.Z q = 0 /\
  FQuat.W q = cos (Fmod angle 360 * (PI / 180 / 2)).
Proof.
  cbv zeta. unfold noiseRot. rewrite Quaternion_roll_only.
  repeat split.
Qed.

(** With noise enabled and a draw of 90 degrees, the noise turns the
    vertical axis onto the lateral one and leaves the forward axis in place;
    the yaw of the rotator is 0, not 90. *)
Example noise_rotation_quarter_turn :
  let s := example_component ENCODER true in
  let w := example_tick 1 0 0 90 in
  FRotator.Yaw (noiseRot w s) = 0 /\
  FRotator.Roll (noiseRot w s) = 90 /\
  FRotator.Quaternion (noiseRot w s) =
    FQuat.Make (- (1 / sqrt 2)) 0 0 (1 / sqrt 2) /\
  FQuat.RotateVector (FRotator.Quaternion (noiseRot w s)) (FVector.Make 1 0 0) =
    FVector.Make 1 0 0 /\
  FQuat.RotateVector (FRotator.Quaternion (noiseRot w s)) (FVector.Make 0 0 1) =
    FVector.Make 0 1 0.
Proof.
  cbv zeta.
  assert (Hroll : FRotator.Roll
            (noiseRot (example_tick 1 0 0 90) (example_component ENCODER true)) = 90)
    by (simpl; ring).
  assert (Hq : FRotator.Quaternion
            (noiseRot (example_tick 1 0 0 90) (example_component ENCODER true)) =
          FQuat.Make (- (1 / sqrt 2)) 0 0 (1 / sqrt 2)).
  { unfold noiseRot. rewrite Quaternion_roll_only.
    cbn [bool_to_float bWithNoise example_component DrawRotation example_tick].
    replace (1 * 90) with 90 by ring.
    rewrite Fmod_small by lra.
    replace (90 * (PI / 180 / 2)) with (PI / 4) by field.
    rewrite sin_PI4, cos_PI4. reflexivity. }
  split; [reflexivity |]. split; [exact Hroll |]. split; [exact Hq |].
  rewrite Hq.
  assert (Hsq : sqrt 2 * sqrt 2 = 2) by (apply sqrt_sqrt; lra).
  assert (Hhalf : 1 / sqrt 2 * (1 / sqrt 2) = 1 / 2).
  { unfold Rdiv. rewrite !Rmult_1_l, <- Rinv_mult, Hsq. reflexivity. }
  set (t := 1 / sqrt 2) in *.
  split; apply FVector_eq; simpl; nra.
Qed.

(** ** Noise disabled *)

Section NoiselessProperties.

Context `{Externals}.

Lemma IsUnit_relative_rotation (ref : FTransform.t) (w : Tick) :
  IsUnit (FTransform.Rotation ref) -> IsUnit (ActorQuat w) ->
  IsUnit (relative_rotation ref w).
Proof.
  intros Href Hw. unfold relative_rotation, FTransform.GetRotation.
  apply IsUnit_mul; [exact Hw | now apply IsUnit_Inverse].
Qed.

(** Without noise and without accumulated drift, the noisy pose of an
    update is the relative ground truth. *)
Lemma noisy_pose_noiseless (w : Tick) (s : URRBaseOdomComponent) :
  bWithNoise s = false ->
  PreviousNoisyTransform s = PreviousTransform s ->
  IsUnit (FTransform.Rotation (PreviousTransform s)) ->
  IsUnit (FTransform.Rotation (InitialTransform s)) ->
  IsUnit (ActorQuat w) ->
  noisy_position w s = relative_position (InitialTransform s) w /\
  noisy_rotation w s = relative_rotation (InitialTransform s) w.
Proof.
  intros Hnoise Heq Hprev Hinit Hw. split.
  - unfold noisy_position. rewrite Hnoise, Heq.
    apply FVector_eq; simpl; ring.
  - unfold noisy_rotation, noiseRot. rewrite Hnoise, Heq.
    cbn [bool_to_float]. replace (0 * DrawRotation w) with 0 by ring.
    rewrite Quaternion_zero, mul_Identity_l.
    rewrite mul_Inverse_unit by exact Hprev.
    rewrite mul_Identity_l.
    apply Normalize_unit. now apply IsUnit_relative_rotation.
Qed.

Lemma InitOdom_noiseless (w : Tick) (s : URRBaseOdomComponent) :
  IsUnit (ActorQuat w) -> noiseless_invariant (InitOdom w s).
Proof.
  intros Hw _.
  destruct (InitOdom_emits_InitialTransform w s) as (_ & _ & Hp & Hn).
  cbv zeta in Hp, Hn. rewrite Hp, Hn.
  assert (Hu : IsUnit (FTransform.Rotation (InitialTransform (InitOdom w s)))).
  { destruct (OdomSource s) eqn:Hsrc.
    - rewrite (InitOdom_world w s Hsrc). apply IsUnit_Identity.
    - destruct (InitOdom_encoder w s Hsrc) as [_ ->]. exact Hw. }
  auto.
Qed.

Lemma ensure_initialized_bWithNoise (w : Tick) (s : URRBaseOdomComponent) :
  bWithNoise (ensure_initialized w s) = bWithNoise s.
Proof.
  unfold ensure_initialized.
  destruct (bIsOdomInitialized s); [reflexivity | apply InitOdom_bWithNoise].
Qed.

Lemma ensure_initialized_noiseless (w : Tick) (s : URRBaseOdomComponent) :
  IsUnit (ActorQuat w) ->
  noiseless_invariant s -> noiseless_invariant (ensure_initialized w s).
Proof.
  intros Hw Hinv. unfold ensure_initialized.
  destruct (bIsOdomInitialized s); [exact Hinv | now apply InitOdom_noiseless].
Qed.

(** An update that passes the guard emits the relative ground truth and
    keeps the two running transforms equal. *)
Lemma UpdateOdom_body_noiseless (w : Tick) (dt : float)
    (s : URRBaseOdomComponent) :
  bWithNoise s = false ->
  bIsOdomInitialized s = true ->
  IsUnit (ActorQuat w) ->
  noiseless_invariant s ->
  let s' := UpdateOdom_body w dt s in
  noiseless_invariant s' /\
  PreviousNoisyTransform s' = PreviousTransform s' /\
  Position (PosePose (Pose (OdomData s'))) =
    FVector.add (relative_position (InitialTransform s') w)
                (FTransform.Translation (RootOffset s)) /\
  Orientation (PosePose (Pose (OdomData s'))) =
    FQuat.mul (relative_rotation (InitialTransform s') w)
              (FTransform.Rotation (RootOffset s)).
Proof.
  intros Hnoise Hflag Hw Hinv. cbv zeta.
  destruct (Hinv Hflag) as (Heq & Hprev & Hinit).
  destruct (noisy_pose_noiseless w s Hnoise Heq Hprev Hinit Hw) as [Hpos Hrot].
  destruct (UpdateOdom_body_fields w dt s) as (Hn & Ht & Hp & Ho & _).
  destruct (UpdateOdom_body_frame w dt s) as (_ & _ & Hi & _).
  cbv zeta in Hn, Ht, Hp, Ho, Hi.
  assert (Hsame : PreviousNoisyTransform (UpdateOdom_body w dt s) =
                  PreviousTransform (UpdateOdom_body w dt s))
    by (rewrite Hn, Ht, Hpos, Hrot, Heq; reflexivity).
  split; [| split; [exact Hsame | split]].
  - intros _. split; [exact Hsame |]. rewrite Ht, Hi.
    split; [| exact Hinit].
    cbn [FTransform.Rotation]. now apply IsUnit_relative_rotation.
  - rewrite Hp, Hi, Hpos. reflexivity.
  - rewrite Ho, Hi, Hrot. reflexivity.
Qed.

Lemma UpdateOdom_noiseless (w : Tick) (dt : float) (s : URRBaseOdomComponent) :
  bWithNoise s = false ->
  IsUnit (ActorQuat w) ->
  noiseless_invariant s -> noiseless_invariant (UpdateOdom w dt s).
Proof.
  intros Hnoise Hw Hinv.
  apply (ensure_initialized_noiseless w) in Hinv; [| exact Hw].
  unfold UpdateOdom. destruct (Rlt_dec dt float32_1e_9); [exact Hinv |].
  apply UpdateOdom_body_noiseless; try assumption.
  - now rewrite ensure_initialized_bWithNoise.
  - apply ensure_initialized_initialized.
Qed.

Lemma UpdateOdom_config (w : Tick) (dt : float) (s : URRBaseOdomComponent) :
  bWithNoise (UpdateOdom w dt s) = bWithNoise s /\
  RootOffset (UpdateOdom w dt s) = RootOffset s.
Proof.
  unfold UpdateOdom. destruct (Rlt_dec dt float32_1e_9).
  - split; [apply ensure_initialized_bWithNoise
           | apply ensure_initialized_RootOffset].
  - destruct (UpdateOdom_body_frame w dt (ensure_initialized w s))
      as (_ & _ & _ & -> & -> & _).
    split; [apply ensure_initialized_bWithNoise
           | apply ensure_initialized_RootOffset].
Qed.

Lemma call_config (c : Call) (s : URRBaseOdomComponent) :
  bWithNoise (call c s) = bWithNoise s /\ RootOffset (call c s) = RootOffset s.
Proof.
  destruct c as [w | w dt | w | f c]; cbn [call].
  - split; [apply InitOdom_bWithNoise | apply InitOdom_RootOffset].
  - apply UpdateOdom_config.
  - unfold SensorUpdate. destruct (bManualUpdate s); [auto |].
    apply (UpdateOdom_config w (TimeSeconds w - LastUpdatedTime s) s).
  - split; reflexivity.
Qed.

Lemma call_noiseless (c : Call) (s : URRBaseOdomComponent) :
  bWithNoise s = false -> reads_unit_quat c ->
  noiseless_invariant s -> noiseless_invariant (call c s).
Proof.
  intros Hnoise Hc Hinv. destruct c as [w | w dt | w | f c]; cbn [call].
  - now apply InitOdom_noiseless.
  - now apply UpdateOdom_noiseless.
  - unfold SensorUpdate. destruct (bManualUpdate s); [exact Hinv |].
    apply (UpdateOdom_noiseless w (TimeSeconds w - LastUpdatedTime s) s
             Hnoise Hc Hinv).
  - exact Hinv.
Qed.

Lemma run_calls_noiseless (cs : list Call) (s : URRBaseOdomComponent) :
  bWithNoise s = false -> Forall reads_unit_quat cs ->
  noiseless_invariant s ->
  noiseless_invariant (run_calls cs s) /\
  bWithNoise (run_calls cs s) = false /\
  RootOffset (run_calls cs s) = RootOffset s.
Proof.
  revert s. induction cs as [| c cs IH]; intros s Hnoise Hcs Hinv; simpl.
  - auto.
  - inversion Hcs as [| c' cs' Hc Hrest]; subst.
    destruct (call_config c s) as [Hb Hr].
    destruct (IH (call c s)) as (Hi & Hb' & Hr').
    + now rewrite Hb.
    + exact Hrest.
    + now apply call_noiseless.
    + split; [exact Hi |]. split; [exact Hb' |]. now rewrite Hr'.
Qed.

End NoiselessProperties.

(** ** Mesh actor activation *)

Section MeshActorProperties.

Context {RenderState : Type}.
Variable RAPYUTA_SIM_VISUAL_DEBUG : bool.
Variable SetCustomDepthEnabled :
  bool -> ARRMeshActor RenderState -> ARRMeshActor RenderState.
Variable OnDeactivated :
  option (ARRMeshActor RenderState -> ARRMeshActor RenderState).

(** [SetCustomDepthEnabled] works on the render state only. *)
Hypothesis SetCustomDepthEnabled_frame :
  forall (b : bool) (a : ARRMeshActor RenderState),
    CellIdx (SetCustomDepthEnabled b a) = CellIdx a /\
    MeshActorLocation (SetCustomDepthEnabled b a) = MeshActorLocation a.

(** A bound deactivation callback does not move or re-index the actor it
    is told about. *)
Hypothesis OnDeactivated_frame :
  forall callback, OnDeactivated = Some callback ->
  forall a : ARRMeshActor RenderState,
    CellIdx (callback a) = CellIdx a /\
    MeshActorLocation (callback a) = MeshActorLocation a.

Lemma FIntVector_eqb_eq (a b : FIntVector.t) :
  FIntVector.eqb a b = true <-> a = b.
Proof.
  destruct a as [ax ay az], b as [bx by' bz]. unfold FIntVector.eqb; simpl.
  rewrite !andb_true_iff, !Z.eqb_eq. split.
  - intros [[-> ->] ->]. reflexivity.
  - intros E. injection E as -> -> ->. auto.
Qed.

Lemma ExecuteIfBound_frame (a : ARRMeshActor RenderState) :
  CellIdx (ExecuteIfBound OnDeactivated a) = CellIdx a /\
  MeshActorLocation (ExecuteIfBound OnDeactivated a) = MeshActorLocation a.
Proof.
  unfold ExecuteIfBound. destruct OnDeactivated as [callback |] eqn:E.
  - now apply OnDeactivated_frame.
  - auto.
Qed.

(** [SetActivated] with the switch, the render pass and the delegate of
    this section. *)
Local Abbreviation SetActivated' :=
  (SetActivated RAPYUTA_SIM_VISUAL_DEBUG SetCustomDepthEnabled OnDeactivated).

(** C10. [IsActivated] is true exactly when [CellIdx] is not the None
    sentinel; [SetActivated(false)] sets [CellIdx] to the sentinel and
    moves the actor to (0, 0, -5000), so the actor is not activated
    afterwards; [SetActivated(true)] leaves the actor activated, with
    [CellIdx] zero if it was the sentinel and unchanged otherwise. *)
Theorem SetActivated_IsActivated (a : ARRMeshActor RenderState) :
  (IsActivated a = true <-> CellIdx a <> FIntVector.NoneValue) /\
  (CellIdx (SetActivated' false a) = FIntVector.NoneValue /\
   MeshActorLocation (SetActivated' false a) = FVector.Make 0 0 (-5000) /\
   IsActivated (SetActivated' false a) = false) /\
  (IsActivated (SetActivated' true a) = true /\
   (CellIdx a = FIntVector.NoneValue ->
    CellIdx (SetActivated' true a) = FIntVector.ZeroValue) /\
   (CellIdx a <> FIntVector.NoneValue ->
    CellIdx (SetActivated' true a) = CellIdx a)).
Proof.
  assert (Hact : forall x : ARRMeshActor RenderState,
             IsActivated x = true <-> CellIdx x <> FIntVector.NoneValue).
  { intros x. unfold IsActivated. rewrite negb_true_iff.
    rewrite <- not_true_iff_false, FIntVector_eqb_eq. reflexivity. }
  split; [apply Hact |]. split.
  - assert (Hc : CellIdx (SetActivated' false a) = FIntVector.NoneValue).
    { unfold SetActivated. cbn [negb].
      destruct (SetCustomDepthEnabled_frame false
                  (ExecuteIfBound OnDeactivated
                     (SetActorLocation (FVector.Make 0 0 (-5000))
                        (set_CellIdx FIntVector.NoneValue
                           (if RAPYUTA_SIM_VISUAL_DEBUG
                            then SetActorHiddenInGame true a else a)))))
        as [-> _].
      destruct (ExecuteIfBound_frame
                  (SetActorLocation (FVector.Make 0 0 (-5000))
                     (set_CellIdx FIntVector.NoneValue
                        (if RAPYUTA_SIM_VISUAL_DEBUG
                         then SetActorHiddenInGame true a else a))))
        as [-> _].
      reflexivity. }
    split; [exact Hc |]. split.
    + unfold SetActivated. cbn [negb].
      destruct (SetCustomDepthEnabled_frame false
                  (ExecuteIfBound OnDeactivated
                     (SetActorLocation (FVector.Make 0 0 (-5000))
                        (set_CellIdx FIntVector.NoneValue
                           (if RAPYUTA_SIM_VISUAL_DEBUG
                            then SetActorHiddenInGame true a else a)))))
        as [_ ->].
      destruct (ExecuteIfBound_frame
                  (SetActorLocation (FVector.Make 0 0 (-5000))
                     (set_CellIdx FIntVector.NoneValue
                        (if RAPYUTA_SIM_VISUAL_DEBUG
                         then SetActorHiddenInGame true a else a))))
        as [_ ->].
      reflexivity.
    + unfold IsActivated. rewrite Hc. reflexivity.
  - assert (Hpre : CellIdx (if RAPYUTA_SIM_VISUAL_DEBUG
                            then SetActorHiddenInGame false a else a) = CellIdx a)
      by (destruct RAPYUTA_SIM_VISUAL_DEBUG; reflexivity).
    assert (Hc : CellIdx (SetActivated' true a) =
                 if FIntVector.eqb (CellIdx a) FIntVector.NoneValue
                 then FIntVector.ZeroValue else CellIdx a).
    { unfold SetActivated. cbn [negb].
      match goal with
      | |- CellIdx (SetCustomDepthEnabled true ?x) = _ =>
          destruct (SetCustomDepthEnabled_frame true x) as [-> _]
      end.
      rewrite Hpre.
      destruct (FIntVector.eqb (CellIdx a) FIntVector.NoneValue);
        [reflexivity | exact Hpre]. }
    split; [| split].
    + apply Hact. rewrite Hc.
      destruct (FIntVector.eqb (CellIdx a) FIntVector.NoneValue) eqn:E.
      * discriminate.
      * intros E'. apply FIntVector_eqb_eq in E'. congruence.
    + intros Hnone. rewrite Hc.
      apply FIntVector_eqb_eq in Hnone. now rewrite Hnone.
    + intros Hsome. rewrite Hc.
      destruct (FIntVector.eqb (CellIdx a) FIntVector.NoneValue) eqn:E;
        [| reflexivity].
      apply FIntVector_eqb_eq in E. contradiction.
Qed.

End MeshActorProperties.

Lemma SetActivated_IsActivated_witness :
  (forall (b : bool) (a : ARRMeshActor (list bool)),
      CellIdx (example_SetCustomDepthEnabled b a) = CellIdx a /\
      MeshActorLocation (example_SetCustomDepthEnabled b a) = MeshActorLocation a) /\
  (forall callback, example_OnDeactivated = Some callback ->
   forall a : ARRMeshActor (list bool),
      CellIdx (callback a) = CellIdx a /\
      MeshActorLocation (callback a) = MeshActorLocation a) /\
  IsActivated example_mesh_actor = true /\
  IsActivated
    (SetActivated true example_SetCustomDepthEnabled example_OnDeactivated
       false example_mesh_actor) = false /\
  IsActivated
    (SetActivated true example_SetCustomDepthEnabled example_OnDeactivated true
       (SetActivated true example_SetCustomDepthEnabled example_OnDeactivated
          false example_mesh_actor)) = true.
Proof.
  assert (Hrender : forall (b : bool) (a : ARRMeshActor (list bool)),
             CellIdx (example_SetCustomDepthEnabled b a) = CellIdx a /\
             MeshActorLocation (example_SetCustomDepthEnabled b a) =
               MeshActorLocation a)
    by (intros b a; split; reflexivity).
  assert (Hcallback : forall callback, example_OnDeactivated = Some callback ->
             forall a : ARRMeshActor (list bool),
               CellIdx (callback a) = CellIdx a /\
               MeshActorLocation (callback a) = MeshActorLocation a)
    by (intros callback E a; injection E as <-; split; reflexivity).
  split; [exact Hrender |]. split; [exact Hcallback |].
  split; [reflexivity |]. split.
  - apply (SetActivated_IsActivated true example_SetCustomDepthEnabled
             example_OnDeactivated Hrender Hcallback example_mesh_actor).
  - apply (SetActivated_IsActivated true example_SetCustomDepthEnabled
             example_OnDeactivated Hrender Hcallback
             (SetActivated true example_SetCustomDepthEnabled
                example_OnDeactivated false example_mesh_actor)).
Defined.


(** * Further properties of the odometry component *)

Section FrameProperties.

Context `{Externals}.

(** The members and message fields that the body of [UpdateOdom] leaves
    alone, beyond those of [UpdateOdom_body_frame]. *)
Lemma UpdateOdom_body_ids (w : Tick) (dt : float) (s : URRBaseOdomComponent) :
  let s' := UpdateOdom_body w dt s in
  HeaderFrameId (Header (OdomData s')) = HeaderFrameId (Header (OdomData s)) /\
  OdomChildFrameId (OdomData s') = OdomChildFrameId (OdomData s) /\
  FrameId s' = FrameId s /\
  ChildFrameId s' = ChildFrameId s /\
  bManualUpdate s' = bManualUpdate s /\
  OdomSource s' = OdomSource s.
Proof. cbv zeta. repeat split. Qed.

Lemma InitOdom_ids (w : Tick) (s : URRBaseOdomComponent) :
  frame_ids_in_sync (InitOdom w s) /\
  bManualUpdate (InitOdom w s) = bManualUpdate s.
Proof.
  unfold frame_ids_in_sync, InitOdom; simpl.
  destruct (OdomSource s); repeat split.
Qed.

Lemma UpdateOdom_in_sync (w : Tick) (dt : float) (s : URRBaseOdomComponent) :
  frame_ids_in_sync s -> frame_ids_in_sync (UpdateOdom w dt s).
Proof.
  intros Hs.
  assert (H0 : frame_ids_in_sync (ensure_initialized w s)).
  { unfold ensure_initialized. destruct (bIsOdomInitialized s); [exact Hs |].
    apply InitOdom_ids. }
  unfold UpdateOdom. destruct (Rlt_dec dt float32_1e_9); [exact H0 |].
  destruct (UpdateOdom_body_ids w dt (ensure_initialized w s))
    as (Ha & Hb & Hc & Hd & _).
  unfold frame_ids_in_sync in *. cbv zeta in Ha, Hb, Hc, Hd.
  rewrite Ha, Hb, Hc, Hd. exact H0.
Qed.

Lemma call_in_sync (c : Call) (s : URRBaseOdomComponent) :
  frame_ids_in_sync s -> frame_ids_in_sync (call c s).
Proof.
  intros Hs. destruct c as [w | w dt | w | f c]; cbn [call].
  - apply InitOdom_ids.
  - now apply UpdateOdom_in_sync.
  - unfold SensorUpdate. destruct (bManualUpdate s); [exact Hs |].
    apply (UpdateOdom_in_sync w (TimeSeconds w - LastUpdatedTime s) s Hs).
  - split; reflexivity.
Qed.

Lemma run_calls_in_sync (cs : list Call) (s : URRBaseOdomComponent) :
  frame_ids_in_sync s -> frame_ids_in_sync (run_calls cs s).
Proof.
  revert s. induction cs as [| c cs IH]; intros s Hs; simpl.
  - exact Hs.
  - apply IH, call_in_sync, Hs.
Qed.

(** X1. Once [InitOdom] or [SetFrameIds] has run, the frame id and the
    child frame id carried by the message are those of the component, and
    stay so through every later call. *)
Theorem frame_ids_stay_in_sync (cs : list Call) (s : URRBaseOdomComponent) :
  (forall w : Tick, frame_ids_in_sync (run_calls cs (InitOdom w s))) /\
  (forall f c : string,
      frame_ids_in_sync (run_calls cs (SetFrameIds f c s)) /\
      FrameId (SetFrameIds f c s) = f /\
      ChildFrameId (SetFrameIds f c s) = c).
Proof.
  split.
  - intros w. apply run_calls_in_sync, InitOdom_ids.
  - intros f c. split; [| split; reflexivity].
    apply run_calls_in_sync. split; reflexivity.
Qed.

Lemma UpdateOdom_InitialTransform (w : Tick) (dt : float)
    (s : URRBaseOdomComponent) :
  bIsOdomInitialized s = true ->
  InitialTransform (UpdateOdom w dt s) = InitialTransform s.
Proof.
  intros Hinit. unfold UpdateOdom.
  rewrite ensure_initialized_id by exact Hinit.
  destruct (Rlt_dec dt float32_1e_9); [reflexivity |].
  now destruct (UpdateOdom_body_frame w dt s) as (_ & _ & -> & _).
Qed.

(** X2. The reference transform is fixed: on an initialised component no
    run of [UpdateOdom], [SensorUpdate] and [SetFrameIds] calls changes
    [InitialTransform]; only an explicit [InitOdom] does. *)
Theorem InitialTransform_fixed (cs : list Call) (s : URRBaseOdomComponent) :
  bIsOdomInitialized s = true ->
  Forall (fun c => is_CallInitOdom c = false) cs ->
  InitialTransform (run_calls cs s) = InitialTransform s /\
  bIsOdomInitialized (run_calls cs s) = true.
Proof.
  revert s. induction cs as [| c cs IH]; intros s Hinit Hcs; simpl.
  - auto.
  - inversion Hcs as [| c' cs' Hc Hrest]; subst.
    assert (Hstep : InitialTransform (call c s) = InitialTransform s /\
                    bIsOdomInitialized (call c s) = true).
    { destruct c as [w | w dt | w | f c]; cbn [call].
      - discriminate Hc.
      - split; [now apply UpdateOdom_InitialTransform
               | apply UpdateOdom_initialized].
      - unfold SensorUpdate. destruct (bManualUpdate s); [auto |].
        split.
        + apply (UpdateOdom_InitialTransform w
                   (TimeSeconds w - LastUpdatedTime s) s Hinit).
        + apply (UpdateOdom_initialized w (TimeSeconds w - LastUpdatedTime s) s).
      - auto. }
    destruct Hstep as [Ht Hi].
    destruct (IH (call c s) Hi Hrest) as [Ht' Hi'].
    split; [now rewrite Ht' | exact Hi'].
Qed.

Lemma UpdateOdom_bManualUpdate (w : Tick) (dt : float)
    (s : URRBaseOdomComponent) :
  bManualUpdate (UpdateOdom w dt s) = bManualUpdate s.
Proof.
  assert (H0 : bManualUpdate (ensure_initialized w s) = bManualUpdate s).
  { unfold ensure_initialized. destruct (bIsOdomInitialized s); [reflexivity |].
    apply InitOdom_ids. }
  unfold UpdateOdom. destruct (Rlt_dec dt float32_1e_9); [exact H0 |].
  destruct (UpdateOdom_body_ids w dt (ensure_initialized w s))
    as (_ & _ & _ & _ & -> & _).
  exact H0.
Qed.

(** X3. A second [SensorUpdate] in the same frame (the same ground truth
    and clock) changes nothing: the elapsed time is zero and the guard
    skips the update. *)
Theorem SensorUpdate_same_frame (w : Tick) (s : URRBaseOdomComponent) :
  SensorUpdate w (SensorUpdate w s) = SensorUpdate w s.
Proof.
  unfold SensorUpdate at 2.
  destruct (bManualUpdate s) eqn:Hman.
  - unfold SensorUpdate. now rewrite Hman.
  - set (s1 := UpdateOdom w (TimeSeconds w - LastUpdatedTime s) s).
    unfold SensorUpdate.
    change (bManualUpdate (set_LastUpdatedTime (TimeSeconds w) s1))
      with (bManualUpdate s1).
    unfold s1 at 1. rewrite UpdateOdom_bManualUpdate, Hman.
    change (LastUpdatedTime (set_LastUpdatedTime (TimeSeconds w) s1))
      with (TimeSeconds w).
    rewrite UpdateOdom_skips by (unfold float32_1e_9; lra).
    rewrite ensure_initialized_id; [reflexivity |].
    apply (UpdateOdom_initialized w (TimeSeconds w - LastUpdatedTime s) s).
Qed.

End FrameProperties.

Lemma InitialTransform_fixed_witness :
  let s := InitOdom (example_tick 0 0 0 0) (example_component ENCODER true) in
  let cs := [CallUpdateOdom (example_tick 1 0.5 0.25 30) 1;
             CallSetFrameIds "map" "base_link";
             CallSensorUpdate (example_tick 2 0 0 0)] in
  bIsOdomInitialized s = true /\
  Forall (fun c => is_CallInitOdom c = false) cs /\
  InitialTransform (@run_calls example_externals cs s) = InitialTransform s /\
  bIsOdomInitialized (@run_calls example_externals cs s) = true.
Proof.
  cbv zeta.
  assert (Hcs : Forall (fun c => is_CallInitOdom c = false)
                  [CallUpdateOdom (example_tick 1 0.5 0.25 30) 1;
                   CallSetFrameIds "map" "base_link";
                   CallSensorUpdate (example_tick 2 0 0 0)])
    by (repeat constructor).
  split; [reflexivity |]. split; [exact Hcs |].
  apply (@InitialTransform_fixed example_externals); [reflexivity | exact Hcs].
Defined.

Section CovarianceCellProperties.

Context `{Externals}.

Lemma write_covariances_off_diagonal (o : FROSOdometry) (i : nat) :
  is_diagonal_index i = false ->
  PoseCovariance (Pose (write_covariances o)) !! i = PoseCovariance (Pose o) !! i /\
  TwistCovariance (Twist (write_covariances o)) !! i =
    TwistCovariance (Twist o) !! i.
Proof.
  intros Hi. unfold is_diagonal_index in Hi.
  apply bool_decide_eq_false in Hi.
  assert (Hne : i <> 0%nat /\ i <> 7%nat /\ i <> 14%nat /\ i <> 21%nat /\
                i <> 28%nat /\ i <> 35%nat).
  { repeat split; intros ->; apply Hi; set_solver. }
  destruct Hne as (H0 & H7 & H14 & H21 & H28 & H35).
  unfold write_covariances; simpl.
  rewrite !list_lookup_insert_ne by (intros E; symmetry in E; contradiction).
  split; reflexivity.
Qed.

Lemma InitOdom_off_diagonal (w : Tick) (s : URRBaseOdomComponent) (i : nat) :
  is_diagonal_index i = false ->
  PoseCovariance (Pose (OdomData (InitOdom w s))) !! i =
    PoseCovariance (Pose (OdomData s)) !! i /\
  TwistCovariance (Twist (OdomData (InitOdom w s))) !! i =
    TwistCovariance (Twist (OdomData s)) !! i.
Proof.
  intros Hi.
  assert (Hp : PoseCovariance (Pose (OdomData (InitOdom w s))) =
               PoseCovariance (Pose (write_covariances (OdomData s))))
    by (unfold InitOdom; simpl; destruct (OdomSource s); reflexivity).
  assert (Ht : TwistCovariance (Twist (OdomData (InitOdom w s))) =
               TwistCovariance (Twist (write_covariances (OdomData s))))
    by (unfold InitOdom; simpl; destruct (OdomSource s); reflexivity).
  rewrite Hp, Ht. now apply write_covariances_off_diagonal.
Qed.

Lemma UpdateOdom_off_diagonal (w : Tick) (dt : float)
    (s : URRBaseOdomComponent) (i : nat) :
  is_diagonal_index i = false ->
  PoseCovariance (Pose (OdomData (UpdateOdom w dt s))) !! i =
    PoseCovariance (Pose (OdomData s)) !! i /\
  TwistCovariance (Twist (OdomData (UpdateOdom w dt s))) !! i =
    TwistCovariance (Twist (OdomData s)) !! i.
Proof.
  intros Hi.
  assert (H0 : PoseCovariance (Pose (OdomData (ensure_initialized w s))) !! i =
                 PoseCovariance (Pose (OdomData s)) !! i /\
               TwistCovariance (Twist (OdomData (ensure_initialized w s))) !! i =
                 TwistCovariance (Twist (OdomData s)) !! i).
  { unfold ensure_initialized. destruct (bIsOdomInitialized s); [auto |].
    now apply InitOdom_off_diagonal. }
  unfold UpdateOdom. destruct (Rlt_dec dt float32_1e_9); [exact H0 |].
  destruct (UpdateOdom_body_frame w dt (ensure_initialized w s))
    as (-> & -> & _).
  exact H0.
Qed.

(** X4. No operation ever writes a covariance cell off the diagonal: after
    any run of calls, every cell of the pose and of the twist covariance
    other than 0, 7, 14, 21, 28 and 35 holds what it held before. *)
Theorem off_diagonal_covariance_untouched (cs : list Call)
    (s : URRBaseOdomComponent) (i : nat) :
  is_diagonal_index i = false ->
  PoseCovariance (Pose (OdomData (run_calls cs s))) !! i =
    PoseCovariance (Pose (OdomData s)) !! i /\
  TwistCovariance (Twist (OdomData (run_calls cs s))) !! i =
    TwistCovariance (Twist (OdomData s)) !! i.
Proof.
  intros Hi. revert s. induction cs as [| c cs IH]; intros s; simpl.
  - auto.
  - destruct (IH (call c s)) as [-> ->].
    destruct c as [w | w dt | w | f c]; cbn [call].
    + now apply InitOdom_off_diagonal.
    + now apply UpdateOdom_off_diagonal.
    + unfold SensorUpdate. destruct (bManualUpdate s); [auto |].
      apply (UpdateOdom_off_diagonal w (TimeSeconds w - LastUpdatedTime s) s i Hi).
    + auto.
Qed.

End CovarianceCellProperties.

Lemma off_diagonal_covariance_untouched_witness :
  let s := example_component ENCODER true in
  let cs := [CallUpdateOdom (example_tick 1 0.5 0.25 30) 1;
             CallInitOdom (example_tick 2 0 0 0)] in
  is_diagonal_index 8 = false /\
  PoseCovariance (Pose (OdomData (@run_calls example_externals cs s))) !! 8%nat =
    PoseCovariance (Pose (OdomData s)) !! 8%nat /\
  TwistCovariance (Twist (OdomData (@run_calls example_externals cs s))) !! 8%nat =
    TwistCovariance (Twist (OdomData s)) !! 8%nat.
Proof.
  cbv zeta. split; [reflexivity |].
  apply (@off_diagonal_covariance_untouched example_externals). reflexivity.
Defined.

Section DriftProperties.

Context `{Externals}.

(** X5. Position noise accumulates: an update that passes the guard adds
    its position noise to the drift carried so far, the noisy position
    being the relative ground truth plus the new drift. *)
Theorem drift_accumulates (w : Tick) (dt : float) (s : URRBaseOdomComponent) :
  ~ dt < 1e-9 ->
  let s0 := ensure_initialized w s in
  let s' := UpdateOdom w dt s in
  position_drift s' = FVector.add (position_drift s0) (position_noise w s0) /\
  FTransform.Translation (PreviousNoisyTransform s') =
    FVector.add (relative_position (InitialTransform s0) w) (position_drift s').
Proof.
  intros Hdt. cbv zeta. rewrite UpdateOdom_passes by exact Hdt.
  set (s0 := ensure_initialized w s).
  destruct (UpdateOdom_body_fields w dt s0) as (Hn & Ht & _).
  cbv zeta in Hn, Ht. unfold position_drift. rewrite Hn, Ht.
  cbn [FTransform.Translation].
  unfold noisy_position, position_noise.
  split; apply FVector_eq; simpl; ring.
Qed.

Lemma InitOdom_planar (w : Tick) (s : URRBaseOdomComponent) :
  planar_invariant (InitOdom w s).
Proof.
  intros _.
  destruct (InitOdom_emits_InitialTransform w s) as (_ & _ & Hp & Hn).
  cbv zeta in Hp, Hn. unfold position_drift. rewrite Hp, Hn. simpl. ring.
Qed.

Lemma UpdateOdom_planar (w : Tick) (dt : float) (s : URRBaseOdomComponent) :
  planar_invariant s -> planar_invariant (UpdateOdom w dt s).
Proof.
  intros Hinv.
  assert (H0 : planar_invariant (ensure_initialized w s)).
  { unfold ensure_initialized. destruct (bIsOdomInitialized s) eqn:E;
      [exact Hinv | apply InitOdom_planar]. }
  unfold UpdateOdom. destruct (Rlt_dec dt float32_1e_9); [exact H0 |].
  intros _.
  destruct (UpdateOdom_body_fields w dt (ensure_initialized w s))
    as (Hn & Ht & _).
  cbv zeta in Hn, Ht. unfold position_drift. rewrite Hn, Ht.
  cbn [FTransform.Translation]. unfold noisy_position.
  specialize (H0 (ensure_initialized_initialized w s)).
  unfold position_drift in H0. simpl in H0 |- *. lra.
Qed.

Lemma run_calls_planar (cs : list Call) (s : URRBaseOdomComponent) :
  planar_invariant s -> planar_invariant (run_calls cs s).
Proof.
  revert s. induction cs as [| c cs IH]; intros s Hinv; simpl.
  - exact Hinv.
  - apply IH. destruct c as [w | w dt | w | f c]; cbn [call].
    + apply InitOdom_planar.
    + now apply UpdateOdom_planar.
    + unfold SensorUpdate. destruct (bManualUpdate s); [exact Hinv |].
      apply (UpdateOdom_planar w (TimeSeconds w - LastUpdatedTime s) s Hinv).
    + exact Hinv.
Qed.

End DriftProperties.

Lemma drift_accumulates_witness :
  let s := example_component ENCODER true in
  let w := example_tick 1 0.5 0.25 30 in
  ~ 1 < 1e-9 /\
  position_drift (@UpdateOdom example_externals w 1 s) =
    FVector.add (position_drift (ensure_initialized w s))
                (position_noise w (ensure_initialized w s)).
Proof.
  cbv zeta.
  assert (Hdt : ~ 1 < 1e-9) by lra.
  split; [exact Hdt |].
  apply (@drift_accumulates example_externals (example_tick 1 0.5 0.25 30) 1
           (example_component ENCODER true) Hdt).
Defined.

Section HeightProperties.

Context `{Externals}.

Lemma run_calls_RootOffset (cs : list Call) (s : URRBaseOdomComponent) :
  RootOffset (run_calls cs s) = RootOffset s /\
  bWithNoise (run_calls cs s) = bWithNoise s.
Proof.
  revert s. induction cs as [| c cs IH]; intros s; simpl.
  - auto.
  - destruct (IH (call c s)) as [-> ->]. destruct (call_config c s); auto.
Qed.

(** The pose members after an update that passes the guard. *)
Lemma UpdateOdom_passing_fields (w : Tick) (dt : float)
    (s : URRBaseOdomComponent) :
  ~ dt < 1e-9 ->
  let s0 := ensure_initialized w s in
  let s' := UpdateOdom w dt s in
  Position (PosePose (Pose (OdomData s'))) =
    FVector.add (noisy_position w s0) (FTransform.Translation (RootOffset s)) /\
  FTransform.Translation (PreviousNoisyTransform s') = noisy_position w s0 /\
  FTransform.Rotation (PreviousNoisyTransform s') = noisy_rotation w s0 /\
  FTransform.Translation (PreviousTransform s') =
    relative_position (InitialTransform s0) w /\
  FTransform.Rotation (PreviousTransform s') =
    relative_rotation (InitialTransform s0) w /\
  InitialTransform s' = InitialTransform s0.
Proof.
  intros Hdt. cbv zeta. rewrite UpdateOdom_passes by exact Hdt.
  destruct (UpdateOdom_body_fields w dt (ensure_initialized w s))
    as (Hn & Ht & Hp & _).
  destruct (UpdateOdom_body_frame w dt (ensure_initialized w s))
    as (_ & _ & Hi & _).
  cbv zeta in Hn, Ht, Hp, Hi.
  rewrite Hn, Ht, Hp, Hi, ensure_initialized_RootOffset.
  repeat split.
Qed.

(** X6. The height is never noised, with noise enabled or not: for a fresh
    component, after any run of calls and an update that passes the guard,
    the drift has no vertical component and the emitted height is the
    height of the relative ground truth plus that of the root offset. *)
Theorem height_never_noised (cs : list Call) (w : Tick) (dt : float)
    (s : URRBaseOdomComponent) :
  bIsOdomInitialized s = false ->
  ~ dt < 1e-9 ->
  let s' := UpdateOdom w dt (run_calls cs s) in
  FVector.Z (position_drift s') = 0 /\
  FVector.Z (Position (PosePose (Pose (OdomData s')))) =
    FVector.Z (relative_position (InitialTransform s') w) +
    FVector.Z (FTransform.Translation (RootOffset s)).
Proof.
  intros Hfresh Hdt. cbv zeta.
  assert (Hinv : planar_invariant (run_calls cs s)).
  { apply run_calls_planar. intros Hflag. rewrite Hfresh in Hflag. discriminate. }
  destruct (run_calls_RootOffset cs s) as [Hroot _].
  set (s1 := run_calls cs s) in *.
  pose proof (UpdateOdom_planar w dt s1 Hinv (UpdateOdom_initialized w dt s1))
    as Hz.
  split; [exact Hz |].
  destruct (UpdateOdom_passing_fields w dt s1 Hdt)
    as (Hpos & Hnt & _ & Htt & _ & Hinit).
  cbv zeta in Hpos, Hnt, Htt, Hinit.
  unfold position_drift in Hz. rewrite Hnt, Htt in Hz.
  rewrite Hpos, Hinit, Hroot. simpl in Hz |- *. lra.
Qed.

End HeightProperties.

Lemma height_never_noised_witness :
  let s := example_component WORLD true in
  let cs := [CallUpdateOdom (example_tick 1 0.5 0.25 30) 1;
             CallSensorUpdate (example_tick 2 (-0.5) 1 10)] in
  let w := example_tick 3 4 5 6 in
  let s' := @UpdateOdom example_externals w 1 (@run_calls example_externals cs s) in
  bIsOdomInitialized s = false /\
  ~ 1 < 1e-9 /\
  FVector.Z (position_drift s') = 0 /\
  FVector.Z (Position (PosePose (Pose (OdomData s')))) =
    FVector.Z (relative_position (InitialTransform s') w) +
    FVector.Z (FTransform.Translation (RootOffset s)).
Proof.
  cbv zeta.
  assert (Hdt : ~ 1 < 1e-9) by lra.
  split; [reflexivity |]. split; [exact Hdt |].
  apply (@height_never_noised example_externals); [reflexivity | exact Hdt].
Defined.

Section NoiselessTwistProperties.

Context `{Externals}.

(** X7. With noise disabled the random draws have no influence: two
    updates that read the same ground truth and clock leave the component
    in the same state whatever the generator yields. *)
Theorem noise_disabled_ignores_draws (w1 w2 : Tick) (dt : float)
    (s : URRBaseOdomComponent) :
  bWithNoise s = false ->
  ActorLocation w1 = ActorLocation w2 ->
  ActorQuat w1 = ActorQuat w2 ->
  TimeSeconds w1 = TimeSeconds w2 ->
  UpdateOdom w1 dt s = UpdateOdom w2 dt s.
Proof.
  intros Hnoise Hloc Hquat Htime.
  destruct w1 as [l1 q1 t1 x1 y1 r1], w2 as [l2 q2 t2 x2 y2 r2].
  simpl in Hloc, Hquat, Htime. subst l2 q2 t2.
  unfold UpdateOdom.
  assert (H0 : ensure_initialized
                 {| ActorLocation := l1; ActorQuat := q1; TimeSeconds := t1;
                    DrawPositionX := x1; DrawPositionY := y1; DrawRotation := r1 |}
                 s =
               ensure_initialized
                 {| ActorLocation := l1; ActorQuat := q1; TimeSeconds := t1;
                    DrawPositionX := x2; DrawPositionY := y2; DrawRotation := r2 |}
                 s) by reflexivity.
  rewrite <- H0.
  set (s0 := ensure_initialized _ s).
  assert (Hb : bWithNoise s0 = false)
    by (unfold s0; now rewrite ensure_initialized_bWithNoise).
  destruct (Rlt_dec dt float32_1e_9); [reflexivity |].
  unfold UpdateOdom_body, noiseRot, FVector.scale.
  cbn [bWithNoise modify_OdomData modify_PreviousTransform
       modify_PreviousNoisyTransform DrawPositionX DrawPositionY DrawRotation
       ActorLocation ActorQuat TimeSeconds FVector.X FVector.Y FVector.Z].
  rewrite Hb. cbn [bool_to_float].
  rewrite !Rmult_0_l, !Rmult_0_r. reflexivity.
Qed.

(** With noise disabled, the linear twist of an update that follows another
    one is the step of the relative ground-truth position between the two
    updates, un-rotated by the new relative orientation, over the elapsed
    time. *)
Lemma noiseless_twist_step (cs : list Call) (w1 w2 : Tick)
    (dt1 dt2 : float) (s : URRBaseOdomComponent) :
  bWithNoise s = false ->
  bIsOdomInitialized s = false ->
  Forall reads_unit_quat cs ->
  IsUnit (ActorQuat w1) ->
  IsUnit (ActorQuat w2) ->
  ~ dt1 < 1e-9 ->
  ~ dt2 < 1e-9 ->
  let s2 := UpdateOdom w2 dt2 (UpdateOdom w1 dt1 (run_calls cs s)) in
  let ref := InitialTransform s2 in
  Linear (TwistTwist (Twist (OdomData s2))) =
    FVector.div
      (FQuat.UnrotateVector (relative_rotation ref w2)
         (FVector.sub (relative_position ref w2) (relative_position ref w1)))
      dt2 /\
  (ActorLocation w2 = ActorLocation w1 ->
   Linear (TwistTwist (Twist (OdomData s2))) = FVector.ZeroVector).
Proof.
  intros Hnoise Hfresh Hcs Hw1 Hw2 Hdt1 Hdt2. cbv zeta.
  destruct (run_calls_noiseless cs s Hnoise Hcs) as (Hinv0 & Hb0 & _).
  { intros Hflag. rewrite Hfresh in Hflag. discriminate. }
  set (s0 := run_calls cs s) in *.
  set (s0' := ensure_initialized w1 s0).
  assert (Hinv0' : noiseless_invariant s0')
    by now apply ensure_initialized_noiseless.
  assert (Hb0' : bWithNoise s0' = false)
    by (unfold s0'; now rewrite ensure_initialized_bWithNoise).
  destruct (Hinv0' (ensure_initialized_initialized w1 s0))
    as (Heq0 & Hprev0 & Hinit0).
  destruct (noisy_pose_noiseless w1 s0' Hb0' Heq0 Hprev0 Hinit0 Hw1)
    as [Hpos1 _].
  destruct (UpdateOdom_passing_fields w1 dt1 s0 Hdt1)
    as (_ & Hnt1 & _ & _ & _ & Hi1).
  cbv zeta in Hnt1, Hi1. fold s0' in Hnt1, Hi1.
  set (s1 := UpdateOdom w1 dt1 s0) in *.
  assert (Hflag1 : bIsOdomInitialized s1 = true)
    by apply UpdateOdom_initialized.
  assert (Hb1 : bWithNoise s1 = false).
  { unfold s1. destruct (UpdateOdom_config w1 dt1 s0) as [-> _]. exact Hb0. }
  assert (Hinv1 : noiseless_invariant s1)
    by (unfold s1; now apply UpdateOdom_noiseless).
  destruct (Hinv1 Hflag1) as (Heq1 & Hprev1 & Hinit1).
  destruct (noisy_pose_noiseless w2 s1 Hb1 Heq1 Hprev1 Hinit1 Hw2)
    as [Hpos2 Hrot2].
  assert (Hi2 : InitialTransform (UpdateOdom w2 dt2 s1) = InitialTransform s1)
    by now apply UpdateOdom_InitialTransform.
  assert (Hlin : Linear (TwistTwist (Twist (OdomData (UpdateOdom w2 dt2 s1)))) =
                 FVector.div
                   (FQuat.UnrotateVector (relative_rotation (InitialTransform s1) w2)
                      (FVector.sub (relative_position (InitialTransform s1) w2)
                         (relative_position (InitialTransform s1) w1)))
                   dt2).
  { rewrite UpdateOdom_passes by exact Hdt2.
    rewrite ensure_initialized_id by exact Hflag1.
    destruct (UpdateOdom_body_fields w2 dt2 s1) as (_ & _ & _ & _ & -> & _).
    rewrite Hpos2, Hrot2, Hnt1, Hpos1, Hi1. reflexivity. }
  rewrite Hi2. split; [exact Hlin |].
  intros Hloc. rewrite Hlin. unfold relative_position. rewrite Hloc.
  apply FVector_eq; simpl; ring.
Qed.

(** X9. The first update of a fresh, noise-free component with the
    odometry source ENCODER: the emitted pose is the root offset (the body
    is at the origin of its odometry frame), but the linear twist is the
    body's world start position, negated, over the elapsed time, also for a
    body that has not moved. *)
Theorem first_update_encoder (w : Tick) (dt : float) (s : URRBaseOdomComponent) :
  OdomSource s = ENCODER ->
  bIsOdomInitialized s = false ->
  bWithNoise s = false ->
  IsUnit (ActorQuat w) ->
  ~ dt < 1e-9 ->
  let s' := UpdateOdom w dt s in
  Position (PosePose (Pose (OdomData s'))) =
    FTransform.Translation (RootOffset s) /\
  Orientation (PosePose (Pose (OdomData s'))) =
    FTransform.Rotation (RootOffset s) /\
  Linear (TwistTwist (Twist (OdomData s'))) =
    FVector.div (FVector.sub FVector.ZeroVector (ActorLocation w)) dt.
Proof.
  intros Hsrc Hfresh Hnoise Hw Hdt. cbv zeta.
  rewrite UpdateOdom_passes by exact Hdt.
  assert (H0 : ensure_initialized w s = InitOdom w s)
    by (unfold ensure_initialized; now rewrite Hfresh).
  rewrite H0. set (s0 := InitOdom w s).
  destruct (InitOdom_encoder w s Hsrc) as [Ht Hr]. fold s0 in Ht, Hr.
  destruct (InitOdom_emits_InitialTransform w s) as (_ & _ & Hp & Hn).
  cbv zeta in Hp, Hn. fold s0 in Hp, Hn.
  assert (Hb : bWithNoise s0 = false)
    by (unfold s0; now rewrite InitOdom_bWithNoise).
  assert (Hu : IsUnit (FTransform.Rotation (InitialTransform s0)))
    by now rewrite Hr.
  assert (Heq : PreviousNoisyTransform s0 = PreviousTransform s0)
    by now rewrite Hn, Hp.
  assert (Hprev : IsUnit (FTransform.Rotation (PreviousTransform s0)))
    by now rewrite Hp.
  destruct (noisy_pose_noiseless w s0 Hb Heq Hprev Hu Hw) as [Hpos Hrot].
  assert (Hrel : relative_rotation (InitialTransform s0) w = FQuat.Identity).
  { unfold relative_rotation, FTransform.GetRotation. rewrite Hr.
    now apply mul_Inverse_unit. }
  assert (Hzero : relative_position (InitialTransform s0) w = FVector.ZeroVector).
  { unfold relative_position, FTransform.GetRotation, FTransform.GetTranslation.
    rewrite Ht. apply FVector_eq; simpl; ring. }
  destruct (UpdateOdom_body_fields w dt s0) as (_ & _ & -> & -> & -> & _).
  rewrite Hpos, Hrot, Hrel, Hzero, Hn.
  unfold s0 at 1 2. rewrite InitOdom_RootOffset.
  split; [apply FVector_eq; simpl; ring |].
  split; [apply mul_Identity_l |].
  rewrite Ht. apply FVector_eq; simpl; ring.
Qed.

Lemma InitOdom_world_invariant (w : Tick) (s : URRBaseOdomComponent) :
  OdomSource s = WORLD -> world_invariant (InitOdom w s).
Proof.
  intros Hsrc. split.
  - unfold InitOdom; simpl. now rewrite Hsrc.
  - intros _. rewrite (InitOdom_world w s Hsrc). split; reflexivity.
Qed.

Lemma UpdateOdom_world_invariant (w : Tick) (dt : float)
    (s : URRBaseOdomComponent) :
  world_invariant s -> world_invariant (UpdateOdom w dt s).
Proof.
  intros Hinv.
  assert (H0 : world_invariant (ensure_initialized w s)).
  { unfold ensure_initialized. destruct (bIsOdomInitialized s); [exact Hinv |].
    apply InitOdom_world_invariant, Hinv. }
  unfold UpdateOdom. destruct (Rlt_dec dt float32_1e_9); [exact H0 |].
  destruct (UpdateOdom_body_ids w dt (ensure_initialized w s))
    as (_ & _ & _ & _ & _ & Hsrc).
  destruct (UpdateOdom_body_frame w dt (ensure_initialized w s))
    as (_ & _ & Hi & _ & _ & Hflag & _).
  cbv zeta in Hsrc, Hi, Hflag. unfold world_invariant.
  rewrite Hsrc, Hi, Hflag. exact H0.
Qed.

Lemma run_calls_world_invariant (cs : list Call) (s : URRBaseOdomComponent) :
  world_invariant s -> world_invariant (run_calls cs s).
Proof.
  revert s. induction cs as [| c cs IH]; intros s Hinv; simpl.
  - exact Hinv.
  - apply IH. destruct c as [w | w dt | w | f c]; cbn [call].
    + apply InitOdom_world_invariant, Hinv.
    + now apply UpdateOdom_world_invariant.
    + unfold SensorUpdate. destruct (bManualUpdate s); [exact Hinv |].
      apply (UpdateOdom_world_invariant w (TimeSeconds w - LastUpdatedTime s)
               s Hinv).
    + exact Hinv.
Qed.

(** X8. With noise disabled and the odometry source WORLD, the linear twist
    of an update that follows another one is the true velocity in the
    body's frame: the step of the body's world position between the two
    updates, un-rotated by the body's current orientation, over the
    elapsed time.  It is zero for a body that stays where it is. *)
Theorem noiseless_twist_is_true_velocity (cs : list Call) (w1 w2 : Tick)
    (dt1 dt2 : float) (s : URRBaseOdomComponent) :
  bWithNoise s = false ->
  OdomSource s = WORLD ->
  bIsOdomInitialized s = false ->
  Forall reads_unit_quat cs ->
  IsUnit (ActorQuat w1) ->
  IsUnit (ActorQuat w2) ->
  ~ dt1 < 1e-9 ->
  ~ dt2 < 1e-9 ->
  let s2 := UpdateOdom w2 dt2 (UpdateOdom w1 dt1 (run_calls cs s)) in
  Linear (TwistTwist (Twist (OdomData s2))) =
    FVector.div
      (FQuat.UnrotateVector (ActorQuat w2)
         (FVector.sub (ActorLocation w2) (ActorLocation w1)))
      dt2 /\
  (ActorLocation w2 = ActorLocation w1 ->
   Linear (TwistTwist (Twist (OdomData s2))) = FVector.ZeroVector).
Proof.
  intros Hnoise Hsrc Hfresh Hcs Hw1 Hw2 Hdt1 Hdt2. cbv zeta.
  destruct (noiseless_twist_step cs w1 w2 dt1 dt2 s Hnoise Hfresh Hcs Hw1 Hw2
              Hdt1 Hdt2) as [Hlin Hzero].
  cbv zeta in Hlin, Hzero.
  split; [| exact Hzero].
  assert (Hinv : world_invariant
                   (UpdateOdom w2 dt2 (UpdateOdom w1 dt1 (run_calls cs s)))).
  { do 2 apply UpdateOdom_world_invariant. apply run_calls_world_invariant.
    split; [exact Hsrc |]. intros Hflag. rewrite Hfresh in Hflag. discriminate. }
  destruct Hinv as [_ Href].
  destruct (Href (UpdateOdom_initialized w2 dt2 _)) as [Hrot Htr].
  rewrite Hlin. unfold relative_rotation, relative_position,
    FTransform.GetRotation, FTransform.GetTranslation.
  rewrite Hrot, Htr.
  apply FVector_eq; simpl; ring.
Qed.

End NoiselessTwistProperties.

Lemma noise_disabled_ignores_draws_witness :
  let s := example_component ENCODER false in
  bWithNoise s = false /\
  ActorLocation (example_tick 1 0.5 0.25 30) = ActorLocation (example_tick 1 7 8 9) /\
  ActorQuat (example_tick 1 0.5 0.25 30) = ActorQuat (example_tick 1 7 8 9) /\
  TimeSeconds (example_tick 1 0.5 0.25 30) = TimeSeconds (example_tick 1 7 8 9) /\
  @UpdateOdom example_externals (example_tick 1 0.5 0.25 30) 1 s =
  @UpdateOdom example_externals (example_tick 1 7 8 9) 1 s.
Proof.
  cbv zeta.
  split; [reflexivity |]. split; [reflexivity |]. split; [reflexivity |].
  split; [reflexivity |].
  apply (@noise_disabled_ignores_draws example_externals); reflexivity.
Defined.

Lemma noiseless_twist_is_true_velocity_witness :
  let s := example_component WORLD false in
  let cs := [CallSensorUpdate (example_tick 1 0 0 0)] in
  let w1 := example_tick 2 0 0 0 in
  let w2 := {| ActorLocation := FVector.Make 4 6 3;
               ActorQuat := FQuat.Identity;
               TimeSeconds := 3;
               DrawPositionX := 0; DrawPositionY := 0; DrawRotation := 0 |} in
  let s2 := @UpdateOdom example_externals w2 0.5
              (@UpdateOdom example_externals w1 1
                 (@run_calls example_externals cs s)) in
  bWithNoise s = false /\
  OdomSource s = WORLD /\
  bIsOdomInitialized s = false /\
  Forall reads_unit_quat cs /\
  IsUnit (ActorQuat w1) /\
  IsUnit (ActorQuat w2) /\
  ~ 1 < 1e-9 /\
  ~ 0.5 < 1e-9 /\
  Linear (TwistTwist (Twist (OdomData s2))) =
    FVector.div
      (FQuat.UnrotateVector (ActorQuat w2)
         (FVector.sub (ActorLocation w2) (ActorLocation w1)))
      0.5.
Proof.
  cbv zeta.
  assert (Hu : IsUnit (FQuat.Make 0 0 1 0))
    by (unfold IsUnit, FQuat.SizeSquared; simpl; ring).
  assert (Hcs : Forall reads_unit_quat [CallSensorUpdate (example_tick 1 0 0 0)])
    by (repeat constructor; exact Hu).
  assert (Hdt1 : ~ 1 < 1e-9) by lra.
  assert (Hdt2 : ~ 0.5 < 1e-9) by lra.
  split; [reflexivity |]. split; [reflexivity |]. split; [reflexivity |].
  split; [exact Hcs |].
  split; [exact Hu |]. split; [exact IsUnit_Identity |].
  split; [exact Hdt1 |]. split; [exact Hdt2 |].
  apply (@noiseless_twist_is_true_velocity example_externals
           [CallSensorUpdate (example_tick 1 0 0 0)] (example_tick 2 0 0 0)
           {| ActorLocation := FVector.Make 4 6 3;
              ActorQuat := FQuat.Identity;
              TimeSeconds := 3;
              DrawPositionX := 0; DrawPositionY := 0; DrawRotation := 0 |}
           1 0.5 (example_component WORLD false)
           eq_refl eq_refl eq_refl Hcs Hu IsUnit_Identity Hdt1 Hdt2).
Defined.

Lemma first_update_encoder_witness :
  let s := example_component ENCODER false in
  let w := example_tick 1 0 0 0 in
  OdomSource s = ENCODER /\
  bIsOdomInitialized s = false /\
  bWithNoise s = false /\
  IsUnit (ActorQuat w) /\
  ~ 1 < 1e-9 /\
  Position (PosePose (Pose (OdomData (@UpdateOdom example_externals w 1 s)))) =
    FTransform.Translation (RootOffset s) /\
  Orientation (PosePose (Pose (OdomData (@UpdateOdom example_externals w 1 s)))) =
    FTransform.Rotation (RootOffset s) /\
  Linear (TwistTwist (Twist (OdomData (@UpdateOdom example_externals w 1 s)))) =
    FVector.div (FVector.sub FVector.ZeroVector (ActorLocation w)) 1.
Proof.
  cbv zeta.
  assert (Hu : IsUnit (FQuat.Make 0 0 1 0))
    by (unfold IsUnit, FQuat.SizeSquared; simpl; ring).
  assert (Hdt : ~ 1 < 1e-9) by lra.
  split; [reflexivity |]. split; [reflexivity |]. split; [reflexivity |].
  split; [exact Hu |]. split; [exact Hdt |].
  apply (@first_update_encoder example_externals (example_tick 1 0 0 0) 1
           (example_component ENCODER false) eq_refl eq_refl eq_refl Hu Hdt).
Defined.

(** * Further properties of the mesh actor *)

Section MeshActorRoundTrip.

Context {RenderState : Type}.
Variable RAPYUTA_SIM_VISUAL_DEBUG : bool.
Variable SetCustomDepthEnabled :
  bool -> ARRMeshActor RenderState -> ARRMeshActor RenderState.
Variable OnDeactivated :
  option (ARRMeshActor RenderState -> ARRMeshActor RenderState).

Hypothesis SetCustomDepthEnabled_frame :
  forall (b : bool) (a : ARRMeshActor RenderState),
    CellIdx (SetCustomDepthEnabled b a) = CellIdx a /\
    MeshActorLocation (SetCustomDepthEnabled b a) = MeshActorLocation a.

Hypothesis OnDeactivated_frame :
  forall callback, OnDeactivated = Some callback ->
  forall a : ARRMeshActor RenderState,
    CellIdx (callback a) = CellIdx a /\
    MeshActorLocation (callback a) = MeshActorLocation a.

(** What [SetActivated] leaves in the cell index and the location. *)
Lemma SetActivated_fields (b : bool) (a : ARRMeshActor RenderState) :
  let a' := SetActivated RAPYUTA_SIM_VISUAL_DEBUG SetCustomDepthEnabled
              OnDeactivated b a in
  CellIdx a' =
    (if b then if FIntVector.eqb (CellIdx a) FIntVector.NoneValue
               then FIntVector.ZeroValue else CellIdx a
     else FIntVector.NoneValue) /\
  MeshActorLocation a' =
    (if b then MeshActorLocation a else FVector.Make 0 0 (-5000)).
Proof.
  cbv zeta. unfold SetActivated.
  match goal with
  | |- CellIdx (SetCustomDepthEnabled b ?x) = _ /\ _ =>
      destruct (SetCustomDepthEnabled_frame b x) as [-> ->]
  end.
  destruct b; cbn [negb].
  - destruct RAPYUTA_SIM_VISUAL_DEBUG; cbn [SetActorHiddenInGame CellIdx];
      destruct (FIntVector.eqb (CellIdx a) FIntVector.NoneValue);
      split; reflexivity.
  - match goal with
    | |- CellIdx (ExecuteIfBound OnDeactivated ?x) = _ /\ _ =>
        destruct (ExecuteIfBound_frame OnDeactivated OnDeactivated_frame x)
          as [-> ->]
    end.
    split; reflexivity.
Qed.

(** X10. Deactivating and then activating a mesh actor does not bring it
    back: whatever its cell index and location were, afterwards the cell
    index is zero and the actor is still at (0, 0, -5000). *)
Theorem deactivate_activate_resets (a : ARRMeshActor RenderState) :
  let a' :=
    SetActivated RAPYUTA_SIM_VISUAL_DEBUG SetCustomDepthEnabled OnDeactivated
      true
      (SetActivated RAPYUTA_SIM_VISUAL_DEBUG SetCustomDepthEnabled
         OnDeactivated false a) in
  CellIdx a' = FIntVector.ZeroValue /\
  MeshActorLocation a' = FVector.Make 0 0 (-5000).
Proof.
  cbv zeta.
  destruct (SetActivated_fields false a) as [Hc Hl].
  destruct (SetActivated_fields true
              (SetActivated RAPYUTA_SIM_VISUAL_DEBUG SetCustomDepthEnabled
                 OnDeactivated false a)) as [-> ->].
  cbv zeta in Hc, Hl. rewrite Hc, Hl. split; reflexivity.
Qed.

End MeshActorRoundTrip.

Lemma deactivate_activate_resets_witness :
  (forall (b : bool) (a : ARRMeshActor (list bool)),
      CellIdx (example_SetCustomDepthEnabled b a) = CellIdx a /\
      MeshActorLocation (example_SetCustomDepthEnabled b a) = MeshActorLocation a) /\
  (forall callback, example_OnDeactivated = Some callback ->
   forall a : ARRMeshActor (list bool),
      CellIdx (callback a) = CellIdx a /\
      MeshActorLocation (callback a) = MeshActorLocation a) /\
  CellIdx example_mesh_actor = FIntVector.Make 2 3 0 /\
  CellIdx
    (SetActivated false example_SetCustomDepthEnabled example_OnDeactivated true
       (SetActivated false example_SetCustomDepthEnabled example_OnDeactivated
          false example_mesh_actor)) = FIntVector.ZeroValue /\
  MeshActorLocation
    (SetActivated false example_SetCustomDepthEnabled example_OnDeactivated true
       (SetActivated false example_SetCustomDepthEnabled example_OnDeactivated
          false example_mesh_actor)) = FVector.Make 0 0 (-5000).
Proof.
  assert (Hrender : forall (b : bool) (a : ARRMeshActor (list bool)),
             CellIdx (example_SetCustomDepthEnabled b a) = CellIdx a /\
             MeshActorLocation (example_SetCustomDepthEnabled b a) =
               MeshActorLocation a)
    by (intros b a; split; reflexivity).
  assert (Hcallback : forall callback, example_OnDeactivated = Some callback ->
             forall a : ARRMeshActor (list bool),
               CellIdx (callback a) = CellIdx a /\
               MeshActorLocation (callback a) = MeshActorLocation a)
    by (intros callback E a; injection E as <-; split; reflexivity).
  split; [exact Hrender |]. split; [exact Hcallback |]. split; [reflexivity |].
  apply (deactivate_activate_resets false example_SetCustomDepthEnabled
           example_OnDeactivated Hrender Hcallback example_mesh_actor).
Defined.

(** * Properties of the joint command callback *)

Section JointCommandProperties.

Variable Joints : gmap string URobotVehicleJoint.

(** The input of a joint after the conversion to engine units. *)
Lemma joint_command_step_known (ty : EJointControlType)
    (js : FROSJointState.t) (i : nat) (joints : gmap string (list float))
    (n : string) (joint : URobotVehicleJoint) :
  ty <> EFFORT ->
  FROSJointState.name js !! i = Some n ->
  Joints !! FString_key n = Some joint ->
  joint_command_step Joints ty js i joints =
  <[FString_key n :=
      [converted_joint_input joint (joint_values ty js !!! i)]]> joints.
Proof.
  intros Hty Hn Hj. unfold joint_command_step.
  rewrite (list_lookup_total_correct _ _ _ Hn), Hj.
  unfold converted_joint_input.
  destruct ty; [| | contradiction];
    destruct (LinearDOF joint =? 1)%Z, (RotationalDOF joint =? 1)%Z;
    reflexivity.
Qed.

Lemma joint_command_step_unknown (ty : EJointControlType)
    (js : FROSJointState.t) (i : nat) (joints : gmap string (list float))
    (n : string) :
  FROSJointState.name js !! i = Some n ->
  Joints !! FString_key n = None ->
  joint_command_step Joints ty js i joints = joints.
Proof.
  intros Hn Hj. unfold joint_command_step.
  now rewrite (list_lookup_total_correct _ _ _ Hn), Hj.
Qed.

(** An iteration for a name with another key leaves the entry of [k]
    alone. *)
Lemma joint_command_step_other (ty : EJointControlType)
    (js : FROSJointState.t) (i : nat) (joints : gmap string (list float))
    (k n : string) :
  ty <> EFFORT ->
  FROSJointState.name js !! i = Some n -> FString_key n <> k ->
  joint_command_step Joints ty js i joints !! k = joints !! k.
Proof.
  intros Hty Hn Hne.
  destruct (Joints !! FString_key n) as [joint |] eqn:Hj.
  - rewrite (joint_command_step_known ty js i joints n joint Hty Hn Hj).
    now apply lookup_insert_ne.
  - now rewrite (joint_command_step_unknown ty js i joints n Hn Hj).
Qed.

Lemma joint_command_loop_other (ty : EJointControlType)
    (js : FROSJointState.t) (count i : nat) (joints : gmap string (list float))
    (k : string) :
  ty <> EFFORT ->
  (i + count <= length (FROSJointState.name js))%nat ->
  (forall (j : nat) (n : string),
      (i <= j < i + count)%nat ->
      FROSJointState.name js !! j = Some n -> FString_key n <> k) ->
  joint_command_loop Joints ty js i count joints !! k = joints !! k.
Proof.
  intros Hty. revert i joints.
  induction count as [| count IH]; intros i joints Hlen Hnot; simpl.
  - reflexivity.
  - rewrite IH; [| lia | intros j n Hj; apply Hnot; lia].
    destruct (lookup_lt_is_Some_2 (FROSJointState.name js) i ltac:(lia))
      as [n Hn].
    apply (joint_command_step_other ty js i joints k n Hty Hn).
    apply (Hnot i n); [lia | exact Hn].
Qed.

(** The entry of a key after the loop is the one written for the last
    name with that key. *)
Lemma joint_command_loop_last (ty : EJointControlType)
    (js : FROSJointState.t) (count i : nat) (joints : gmap string (list float))
    (n : string) (joint : URobotVehicleJoint) (j0 : nat) :
  ty <> EFFORT ->
  (i + count <= length (FROSJointState.name js))%nat ->
  (i <= j0 < i + count)%nat ->
  FROSJointState.name js !! j0 = Some n ->
  (forall (j : nat) (n' : string),
      (j0 < j < i + count)%nat ->
      FROSJointState.name js !! j = Some n' ->
      FString_key n' <> FString_key n) ->
  Joints !! FString_key n = Some joint ->
  joint_command_loop Joints ty js i count joints !! FString_key n =
  Some [converted_joint_input joint (joint_values ty js !!! j0)].
Proof.
  intros Hty. revert i joints.
  induction count as [| count IH]; intros i joints Hlen Hj0 Hn Hlast Hjoint;
    simpl.
  - lia.
  - destruct (decide (j0 = i)) as [-> | Hne].
    + rewrite joint_command_loop_other;
        [| exact Hty | lia | intros j n' Hj; apply Hlast; lia].
      rewrite (joint_command_step_known ty js i joints n joint Hty Hn Hjoint).
      apply lookup_insert_eq.
    + apply IH; [lia | lia | exact Hn | | exact Hjoint].
      intros j n' Hj. apply Hlast. lia.
Qed.

(** The keys after the loop: those before it, and the keys of the names of
    the iterations that the vehicle has a joint for. *)
Lemma joint_command_loop_dom (ty : EJointControlType)
    (js : FROSJointState.t) (count i : nat) (joints : gmap string (list float))
    (k : string) :
  ty <> EFFORT ->
  (i + count <= length (FROSJointState.name js))%nat ->
  is_Some (joint_command_loop Joints ty js i count joints !! k) <->
  is_Some (joints !! k) \/
  (is_Some (Joints !! k) /\
   exists (j : nat) (n : string),
     (i <= j < i + count)%nat /\
     FROSJointState.name js !! j = Some n /\ FString_key n = k).
Proof.
  intros Hty. revert i joints.
  induction count as [| count IH]; intros i joints Hlen; simpl.
  - split; [auto |]. intros [Hs | (_ & j & n & Hj & _)]; [exact Hs | lia].
  - rewrite IH by lia.
    destruct (lookup_lt_is_Some_2 (FROSJointState.name js) i ltac:(lia))
      as [n Hn].
    assert (Hstep : is_Some (joint_command_step Joints ty js i joints !! k) <->
                    is_Some (joints !! k) \/
                    (FString_key n = k /\ is_Some (Joints !! k))).
    { destruct (Joints !! FString_key n) as [joint |] eqn:Hj.
      - rewrite (joint_command_step_known ty js i joints n joint Hty Hn Hj).
        rewrite lookup_insert_is_Some. split.
        + intros [<- | [_ Hs]]; [right; split; [reflexivity | now rewrite Hj] |
                                 now left].
        + intros [Hs | [Hk _]];
            [destruct (decide (FString_key n = k));
             [now left | right; split; assumption]
            | now left].
      - rewrite (joint_command_step_unknown ty js i joints n Hn Hj).
        split; [now left |].
        intros [Hs | [<- Hs]]; [exact Hs |].
        rewrite Hj in Hs. now apply is_Some_None in Hs. }
    rewrite Hstep. split.
    + intros [[Hs | [Hk Hs]] | (Hs & j & n' & Hj & Hn' & Hk)].
      * now left.
      * right. split; [exact Hs |]. exists i, n. split; [lia | auto].
      * right. split; [exact Hs |]. exists j, n'. split; [lia | auto].
    + intros [Hs | (Hs & j & n' & Hj & Hn' & Hk)].
      * left. now left.
      * destruct (decide (j = i)) as [-> | Hne].
        -- left. right. split; [congruence | exact Hs].
        -- right. split; [exact Hs |]. exists j, n'. split; [lia | auto].
Qed.

Lemma JointStateCallback_Some (js : FROSJointState.t)
    (joints : gmap string (list float)) (ty : EJointControlType) :
  JointStateCallback Joints (Some js) = Some (joints, ty) ->
  ty <> EFFORT /\
  joints = joint_command_loop Joints ty js 0
             (length (FROSJointState.name js)) ∅ /\
  length (FROSJointState.name js) = length (joint_values ty js) /\
  (ty = POSITION <->
   length (FROSJointState.name js) = length (FROSJointState.position js)).
Proof.
  unfold JointStateCallback.
  destruct (Nat.eqb_spec (length (FROSJointState.name js))
              (length (FROSJointState.position js))) as [Hp | Hp].
  - intros E. injection E as <- <-. repeat split; auto; discriminate.
  - destruct (Nat.eqb_spec (length (FROSJointState.name js))
                (length (FROSJointState.velocity js))) as [Hv | Hv].
    + intros E. injection E as <- <-.
      repeat split; auto; try discriminate. intros E; contradiction.
    + destruct (length (FROSJointState.name js) =?
                length (FROSJointState.effort js))%nat; discriminate.
Qed.

(** X11. Which joint-state messages become a command: none when the
    message is not a valid joint state, and none when neither the position
    nor the velocity array has the size of the name array (effort-only
    messages included); otherwise the positions are used when their array
    fits and the velocities only when it does not; the control type
    EFFORT is never commanded. *)
Theorem joint_command_control_type (js : FROSJointState.t) :
  JointStateCallback Joints None = None /\
  (JointStateCallback Joints (Some js) = None <->
   length (FROSJointState.name js) <> length (FROSJointState.position js) /\
   length (FROSJointState.name js) <> length (FROSJointState.velocity js)) /\
  (forall (joints : gmap string (list float)) (ty : EJointControlType),
      JointStateCallback Joints (Some js) = Some (joints, ty) ->
      ty <> EFFORT /\
      (ty = POSITION <->
       length (FROSJointState.name js) = length (FROSJointState.position js)) /\
      (ty = VELOCITY <->
       length (FROSJointState.name js) <> length (FROSJointState.position js))).
Proof.
  split; [reflexivity |]. split.
  - unfold JointStateCallback.
    destruct (Nat.eqb_spec (length (FROSJointState.name js))
                (length (FROSJointState.position js))) as [Hp | Hp].
    + split; [discriminate | intros [Hn _]; contradiction].
    + destruct (Nat.eqb_spec (length (FROSJointState.name js))
                  (length (FROSJointState.velocity js))) as [Hv | Hv].
      * split; [discriminate | intros [_ Hn]; contradiction].
      * destruct (length (FROSJointState.name js) =?
                  length (FROSJointState.effort js))%nat; split; auto.
  - intros joints ty E.
    destruct (JointStateCallback_Some js joints ty E) as (Hty & _ & _ & Hpos).
    split; [exact Hty |]. split; [exact Hpos |].
    destruct ty; [| | contradiction].
    + split; [discriminate |]. intros Hn. exfalso. apply Hn, Hpos. reflexivity.
    + split; [| reflexivity]. intros _ Hn. apply Hpos in Hn. discriminate.
Qed.

(** X12. The joints of a command are exactly the names of the message
    that the vehicle has a joint for, names being taken without regard to
    the case of their letters: a joint the vehicle does not have is never
    commanded, and none that it has is left out. *)
Theorem joint_command_domain (js : FROSJointState.t)
    (joints : gmap string (list float)) (ty : EJointControlType) (k : string) :
  JointStateCallback Joints (Some js) = Some (joints, ty) ->
  is_Some (joints !! k) <->
  (exists n : string, n ∈ FROSJointState.name js /\ FString_key n = k) /\
  is_Some (Joints !! k).
Proof.
  intros E. destruct (JointStateCallback_Some js joints ty E) as (Hty & -> & _).
  rewrite joint_command_loop_dom by (exact Hty || (simpl; lia)).
  rewrite lookup_empty. split.
  - intros [Hs | (Hs & j & n & _ & Hn & Hk)]; [now apply is_Some_None in Hs |].
    split; [| exact Hs]. exists n. split; [| exact Hk].
    apply list_elem_of_lookup. now exists j.
  - intros [(n & Hin & Hk) Hs]. right. split; [exact Hs |].
    apply list_elem_of_lookup in Hin. destruct Hin as [j Hj].
    exists j, n. split; [| auto].
    apply lookup_lt_Some in Hj. simpl. lia.
Qed.

(** X13. The input of a commanded joint is one value: the cell of the
    position (or velocity) array at the last index where the joint is
    named (without regard to the case of the letters), times 100 for a
    joint with one linear degree of freedom, times 180/pi for a joint with
    one rotational degree of freedom (and no linear one), unchanged for
    any other joint. *)
Theorem joint_command_value (js : FROSJointState.t)
    (joints : gmap string (list float)) (ty : EJointControlType)
    (n : string) (joint : URobotVehicleJoint) (j0 : nat) :
  JointStateCallback Joints (Some js) = Some (joints, ty) ->
  FROSJointState.name js !! j0 = Some n ->
  (forall (j : nat) (n' : string),
      (j0 < j)%nat -> FROSJointState.name js !! j = Some n' ->
      FString_key n' <> FString_key n) ->
  Joints !! FString_key n = Some joint ->
  joints !! FString_key n =
    Some [converted_joint_input joint (joint_values ty js !!! j0)] /\
  is_Some (joint_values ty js !! j0).
Proof.
  intros E Hn Hlast Hjoint.
  destruct (JointStateCallback_Some js joints ty E) as (Hty & -> & Hlen & _).
  pose proof (lookup_lt_Some _ _ _ Hn) as Hlt.
  split.
  - apply (joint_command_loop_last ty js _ 0 ∅ n joint j0 Hty);
      [simpl; lia | lia | exact Hn | | exact Hjoint].
    intros j n' Hj. apply Hlast. lia.
  - apply lookup_lt_is_Some. lia.
Qed.

End JointCommandProperties.

(** The lift is named twice, the second time in capitals: one entry, with
    the second value. *)
Lemma joint_command_domain_witness :
  let joints :=
    joint_command_loop example_Joints POSITION example_jointState 0 3 ∅ in
  JointStateCallback example_Joints (Some example_jointState) =
    Some (joints, POSITION) /\
  (is_Some (joints !! "lift") <->
   (exists n : string,
       n ∈ FROSJointState.name example_jointState /\ FString_key n = "lift") /\
   is_Some (example_Joints !! "lift")) /\
  (is_Some (joints !! "LIFT") <->
   (exists n : string,
       n ∈ FROSJointState.name example_jointState /\ FString_key n = "LIFT") /\
   is_Some (example_Joints !! "LIFT")).
Proof.
  cbv zeta.
  assert (E : JointStateCallback example_Joints (Some example_jointState) =
              Some (joint_command_loop example_Joints POSITION
                      example_jointState 0 3 ∅, POSITION)) by reflexivity.
  split; [exact E |]. split.
  - apply (joint_command_domain example_Joints example_jointState _ POSITION
             "lift" E).
  - apply (joint_command_domain example_Joints example_jointState _ POSITION
             "LIFT" E).
Defined.

Lemma joint_command_value_witness :
  let joints :=
    joint_command_loop example_Joints POSITION example_jointState 0 3 ∅ in
  let lift := {| LinearDOF := 1; RotationalDOF := 0 |} in
  JointStateCallback example_Joints (Some example_jointState) =
    Some (joints, POSITION) /\
  FROSJointState.name example_jointState !! 2%nat = Some "LIFT" /\
  (forall (j : nat) (n' : string),
      (2 < j)%nat -> FROSJointState.name example_jointState !! j = Some n' ->
      FString_key n' <> FString_key "LIFT") /\
  example_Joints !! FString_key "LIFT" = Some lift /\
  joints !! FString_key "LIFT" =
    Some [converted_joint_input lift
            (joint_values POSITION example_jointState !!! 2%nat)] /\
  is_Some (joint_values POSITION example_jointState !! 2%nat).
Proof.
  cbv zeta.
  assert (E : JointStateCallback example_Joints (Some example_jointState) =
              Some (joint_command_loop example_Joints POSITION
                      example_jointState 0 3 ∅, POSITION)) by reflexivity.
  assert (Hlast : forall (j : nat) (n' : string),
            (2 < j)%nat ->
            FROSJointState.name example_jointState !! j = Some n' ->
            FString_key n' <> FString_key "LIFT").
  { intros [| [| [| j]]] n' Hj Hn'; [lia | lia | lia | discriminate Hn']. }
  assert (Hlift : example_Joints !! FString_key "LIFT" =
                  Some {| LinearDOF := 1; RotationalDOF := 0 |})
    by apply lookup_insert_eq.
  split; [exact E |]. split; [reflexivity |]. split; [exact Hlast |].
  split; [exact Hlift |].
  apply (joint_command_value example_Joints example_jointState _ POSITION
           "LIFT" _ 2%nat E eq_refl Hlast Hlift).
Defined.

(** The same message, evaluated: the lift is commanded 200 (2 m in cm), the
    value of its second naming. *)
Example joint_command_case_insensitive :
  forall joints ty,
    JointStateCallback example_Joints (Some example_jointState) =
      Some (joints, ty) ->
    ty = POSITION /\ joints !! "lift" = Some [2 * 100] /\
    joints !! "LIFT" = None /\ joints !! "gripper" = None.
Proof.
  intros joints ty E. injection E as <- <-.
  split; [reflexivity |].
  cbn [joint_command_loop length FROSJointState.name example_jointState].
  unfold joint_command_step.
  cbn [FROSJointState.name FROSJointState.position example_jointState].
  change (FString_key (["lift"; "gripper"; "LIFT"] !!! 0%nat)) with "lift".
  change (FString_key (["lift"; "gripper"; "LIFT"] !!! 1%nat)) with "gripper".
  change (FString_key (["lift"; "gripper"; "LIFT"] !!! 2%nat)) with "lift".
  assert (Hl : example_Joints !! "lift" =
               Some {| LinearDOF := 1; RotationalDOF := 0 |})
    by apply lookup_insert_eq.
  assert (Hg : example_Joints !! "gripper" = None).
  { unfold example_Joints.
    rewrite !lookup_insert_ne by discriminate. apply lookup_empty. }
  rewrite Hl, Hg. simpl.
  rewrite lookup_insert_eq, !lookup_insert_ne by discriminate.
  rewrite lookup_empty. auto.
Qed.

(** * Properties of mesh component creation *)

Section MeshCreationProperties.

Context {Component : Type} `{EqDecision Component}.
Variable IsRelative : string -> bool.
Variable FileExists : string -> bool.
Variable CreateMeshComponent : string -> nat -> FTransform.t -> option Component.
Variable InitializeMesh : Component -> string -> bool.
Variable RelativeTransformIsIdentity : Component -> bool.

(** The step, the loop and the function with the collaborators of this
    section. *)
Local Abbreviation step :=
  (create_mesh_step IsRelative FileExists CreateMeshComponent InitializeMesh).
Local Abbreviation loop :=
  (create_mesh_loop IsRelative FileExists CreateMeshComponent InitializeMesh).
Local Abbreviation created :=
  (created_for CreateMeshComponent InitializeMesh).
Local Abbreviation creation_invariant :=
  (creation_invariant CreateMeshComponent InitializeMesh).

Lemma AddUnique_spec (c : Component) (l : list Component) :
  NoDup l ->
  NoDup (AddUnique c l) /\
  l `prefix_of` AddUnique c l /\
  (forall x, x ∈ AddUnique c l <-> x ∈ l \/ x = c) /\
  (length (AddUnique c l) <= S (length l))%nat.
Proof.
  intros Hnd. unfold AddUnique. destruct (decide (c ∈ l)) as [Hin | Hnin].
  - split; [exact Hnd |]. split; [reflexivity |]. split; [| lia].
    intros x. split; [auto | intros [Hx | ->]; assumption].
  - split.
    { apply NoDup_app. split; [exact Hnd |]. split; [| apply NoDup_singleton].
      intros x Hx Hx'. apply list_elem_of_singleton in Hx'. now subst. }
    split; [now apply prefix_app_r |]. split.
    + intros x. rewrite elem_of_app, list_elem_of_singleton. reflexivity.
    + rewrite length_app. simpl. lia.
Qed.

Lemma create_mesh_step_invariant (T : list FTransform.t) (i : nat) (n : string)
    (all : list string) (l0 : list Component)
    (st : list Component * list Component) :
  n ∈ all ->
  creation_invariant all l0 st ->
  creation_invariant all l0 (step T i n st) /\
  st.2 `prefix_of` (step T i n st).2 /\
  (length (step T i n st).2 <= S (length st.2))%nat.
Proof.
  intros Hn (Hnd & Hpre & Hcr & Hsub & Hsup).
  destruct st as [l added]. simpl in Hnd, Hpre, Hcr, Hsub, Hsup.
  unfold create_mesh_step.
  destruct (negb (IsRelative n) && negb (FileExists n)).
  { split; [repeat split; assumption |]. split; [reflexivity | simpl; lia]. }
  assert (Hkeep : creation_invariant all l0 (l ++ added, added)).
  { repeat split; simpl; auto.
    - now apply prefix_app_r.
    - intros c Hc. apply elem_of_app. now right.
    - intros c Hc. apply elem_of_app in Hc. destruct Hc; auto. }
  destruct (CreateMeshComponent n (length l) (default FTransform.Identity (T !! i)))
    as [c |] eqn:Hc;
    [| split; [exact Hkeep |]; split; [reflexivity | simpl; lia]].
  destruct (InitializeMesh c n) eqn:Hi;
    [| split; [exact Hkeep |]; split; [reflexivity | simpl; lia]].
  destruct (AddUnique_spec c added Hnd) as (Hnd' & Hpre' & Hmem & Hlen).
  split; [| split; [exact Hpre' | exact Hlen]].
  repeat split; simpl; auto.
  - now apply prefix_app_r.
  - intros x Hx. apply Hmem in Hx. destruct Hx as [Hx | ->]; [now apply Hcr |].
    exists n, (length l), (default FTransform.Identity (T !! i)). auto.
  - intros x Hx. apply elem_of_app. now right.
  - intros x Hx. apply elem_of_app in Hx. destruct Hx as [Hx | Hx]; [| now right].
    destruct (Hsup x Hx) as [H0 | Ha]; [now left |].
    right. apply Hmem. now left.
Qed.

Lemma create_mesh_loop_invariant (T : list FTransform.t) (names : list string)
    (i : nat) (all : list string) (l0 : list Component)
    (st : list Component * list Component) :
  (forall n, n ∈ names -> n ∈ all) ->
  creation_invariant all l0 st ->
  creation_invariant all l0 (loop T i names st) /\
  (length (loop T i names st).2 <= length st.2 + length names)%nat.
Proof.
  revert i st. induction names as [| n names IH]; intros i st Hall Hinv; simpl.
  - split; [exact Hinv | lia].
  - destruct (create_mesh_step_invariant T i n all l0 st) as (Hinv' & _ & Hlen);
      [apply Hall; left | exact Hinv |].
    destruct (IH (S i) (step T i n st)) as [Hinv'' Hlen''];
      [intros n' Hn'; apply Hall; now right | exact Hinv' |].
    split; [exact Hinv'' | lia].
Qed.

Lemma choose_base_mesh_MeshCompList (a : ARRMeshActorMeshes Component) :
  MeshCompList (choose_base_mesh RelativeTransformIsIdentity a) = MeshCompList a.
Proof.
  destruct a as [l b r d]. unfold choose_base_mesh; simpl.
  destruct b; [reflexivity |]. destruct l as [| first rest]; [reflexivity |].
  destruct (RelativeTransformIsIdentity first); reflexivity.
Qed.

(** The result of [CreateMeshComponentList] as the loop leaves it. *)
Lemma CreateMeshComponentList_Some (names : list string)
    (T : list FTransform.t) (M : list string)
    (a a' : ARRMeshActorMeshes Component) (added : list Component) :
  CreateMeshComponentList IsRelative FileExists CreateMeshComponent
    InitializeMesh RelativeTransformIsIdentity names T M a = Some (a', added) ->
  MeshCompList a' = (loop T 0 names (MeshCompList a, [])).1 /\
  added = (loop T 0 names (MeshCompList a, [])).2 /\
  a' = choose_base_mesh RelativeTransformIsIdentity
         {| MeshCompList := (loop T 0 names (MeshCompList a, [])).1;
            BaseMeshComp := BaseMeshComp a;
            RootComponent := RootComponent a;
            DestroyedComponents := DestroyedComponents a |}.
Proof.
  unfold CreateMeshComponentList.
  destruct ((0 <? length T)%nat && negb (length T =? length names)%nat);
    [discriminate |].
  destruct ((0 <? length M)%nat && negb (length M =? length names)%nat);
    [discriminate |].
  destruct (loop T 0 names (MeshCompList a, [])) as [l' added'] eqn:E.
  intros E'. injection E' as <- <-.
  rewrite choose_base_mesh_MeshCompList. simpl. auto.
Qed.

(** X14. What [CreateMeshComponentList] returns and adds: the returned
    list has no duplicates and at most one component per name, each one
    created for one of the names with its mesh initialised; the actor's
    list keeps its former content as a prefix, and its members afterwards
    are exactly the former ones and the returned ones. *)
Theorem CreateMeshComponentList_result (names : list string)
    (T : list FTransform.t) (M : list string)
    (a a' : ARRMeshActorMeshes Component) (added : list Component) :
  CreateMeshComponentList IsRelative FileExists CreateMeshComponent
    InitializeMesh RelativeTransformIsIdentity names T M a = Some (a', added) ->
  NoDup added /\
  (length added <= length names)%nat /\
  (forall c, c ∈ added -> created names c) /\
  MeshCompList a `prefix_of` MeshCompList a' /\
  (forall c, c ∈ MeshCompList a' <-> c ∈ MeshCompList a \/ c ∈ added).
Proof.
  intros E. destruct (CreateMeshComponentList_Some _ _ _ _ _ _ E) as (-> & -> & _).
  destruct (create_mesh_loop_invariant T names 0 names (MeshCompList a)
              (MeshCompList a, []))
    as ((Hnd & Hpre & Hcr & Hsub & Hsup) & Hlen).
  - auto.
  - repeat split; simpl; auto; try apply NoDup_nil_2; try reflexivity;
      intros c Hc; now apply elem_of_nil in Hc.
  - simpl in Hlen. repeat split; auto.
    intros [Hc | Hc]; [| now apply Hsub].
    destruct Hpre as [k ->]. apply elem_of_app. now left.
Qed.

(** An iteration in which everything succeeds for a new component. *)
Lemma create_mesh_step_succeeds (T : list FTransform.t) (i : nat) (n : string)
    (l added : list Component) (c : Component) :
  IsRelative n = true \/ FileExists n = true ->
  CreateMeshComponent n (length l) (default FTransform.Identity (T !! i)) =
    Some c ->
  InitializeMesh c n = true ->
  c ∉ added ->
  step T i n (l, added) = (l ++ added ++ [c], added ++ [c]).
Proof.
  intros Hpath Hc Hi Hnew. unfold create_mesh_step.
  assert (Hcheck : negb (IsRelative n) && negb (FileExists n) = false)
    by (destruct Hpath as [-> | ->]; [reflexivity | apply andb_false_r]).
  rewrite Hcheck, Hc, Hi. unfold AddUnique.
  now rewrite (decide_False (P := c ∈ added)) by exact Hnew.
Qed.

(** The loop when every name passes the path check and every creation and
    initialisation succeeds, with components of different running numbers
    being different objects. *)
Lemma create_mesh_loop_all_succeed (T : list FTransform.t)
    (names : list string) (i : nat) (l added : list Component) :
  (forall n, n ∈ names -> IsRelative n = true \/ FileExists n = true) ->
  (forall n, n ∈ names -> forall k t, is_Some (CreateMeshComponent n k t)) ->
  (forall n, n ∈ names -> forall c, InitializeMesh c n = true) ->
  (forall n1 n2 k1 k2 t1 t2 c,
      CreateMeshComponent n1 k1 t1 = Some c ->
      CreateMeshComponent n2 k2 t2 = Some c -> k1 = k2) ->
  (forall c, c ∈ added ->
             exists n k t, CreateMeshComponent n k t = Some c /\
                           (k < length l)%nat) ->
  (length (loop T i names (l, added)).2 = length added + length names)%nat /\
  (2 * length (loop T i names (l, added)).1 =
   2 * length l + 2 * length names * length added +
   length names * (length names + 1))%nat.
Proof.
  intros Hpath Hcreate Hinit Hdistinct.
  revert i l added Hpath Hcreate Hinit.
  induction names as [| n names IH]; intros i l added Hpath Hcreate Hinit Hold;
    cbn [create_mesh_loop].
  - simpl. lia.
  - destruct (Hcreate n ltac:(left) (length l)
                (default FTransform.Identity (T !! i))) as [c Hc].
    assert (Hnew : c ∉ added).
    { intros Hin. destruct (Hold c Hin) as (n' & k & t & Hc' & Hk).
      pose proof (Hdistinct _ _ _ _ _ _ _ Hc Hc'). lia. }
    rewrite (create_mesh_step_succeeds T i n l added c
               (Hpath n ltac:(left)) Hc (Hinit n ltac:(left) c) Hnew).
    destruct (IH (S i) (l ++ added ++ [c]) (added ++ [c])) as [Ha Hl].
    + intros n' Hn'. apply Hpath. now right.
    + intros n' Hn'. apply Hcreate. now right.
    + intros n' Hn'. apply Hinit. now right.
    + intros x Hx. apply elem_of_app in Hx. destruct Hx as [Hx | Hx].
      * destruct (Hold x Hx) as (n' & k & t & Hc' & Hk).
        exists n', k, t. split; [exact Hc' |]. rewrite !length_app. lia.
      * apply list_elem_of_singleton in Hx. subst x.
        exists n, (length l), (default FTransform.Identity (T !! i)).
        split; [exact Hc |]. rewrite !length_app. simpl. lia.
    + rewrite Ha, Hl, !length_app. simpl. split; lia.
Qed.

(** X15. The actor's list grows by more than what is returned: it is
    extended by the whole list of added components in each iteration that
    gets past the path check.  When every name passes the check and every
    creation and initialisation succeeds, with different running numbers
    giving different components, [n] names return [n] components and
    lengthen the actor's list by [n (n + 1) / 2]. *)
Theorem CreateMeshComponentList_growth (names : list string)
    (T : list FTransform.t) (M : list string)
    (a a' : ARRMeshActorMeshes Component) (added : list Component) :
  CreateMeshComponentList IsRelative FileExists CreateMeshComponent
    InitializeMesh RelativeTransformIsIdentity names T M a = Some (a', added) ->
  (forall n, n ∈ names -> IsRelative n = true \/ FileExists n = true) ->
  (forall n, n ∈ names -> forall k t, is_Some (CreateMeshComponent n k t)) ->
  (forall n, n ∈ names -> forall c, InitializeMesh c n = true) ->
  (forall n1 n2 k1 k2 t1 t2 c,
      CreateMeshComponent n1 k1 t1 = Some c ->
      CreateMeshComponent n2 k2 t2 = Some c -> k1 = k2) ->
  length added = length names /\
  (2 * length (MeshCompList a') =
   2 * length (MeshCompList a) + length names * (length names + 1))%nat.
Proof.
  intros E Hpath Hcreate Hinit Hdistinct.
  destruct (CreateMeshComponentList_Some _ _ _ _ _ _ E) as (-> & -> & _).
  destruct (create_mesh_loop_all_succeed T names 0 (MeshCompList a) []
              Hpath Hcreate Hinit Hdistinct) as [Ha Hl].
  - intros c Hc. now apply elem_of_nil in Hc.
  - simpl in Ha, Hl. split; lia.
Qed.

(** The first component of the actor's list and of the returned list are
    the same when the actor starts without components. *)
Lemma create_mesh_loop_head (T : list FTransform.t) (names : list string)
    (i : nat) (st : list Component * list Component) :
  head st.1 = head st.2 ->
  (st.1 = [] -> st.2 = []) ->
  head (loop T i names st).1 = head (loop T i names st).2 /\
  ((loop T i names st).1 = [] -> (loop T i names st).2 = []).
Proof.
  revert i st. induction names as [| n names IH]; intros i st Hhead Hnil; simpl.
  - auto.
  - apply IH.
    + destruct st as [l added]. simpl in Hhead, Hnil. unfold create_mesh_step.
      destruct (negb (IsRelative n) && negb (FileExists n)); [exact Hhead |].
      destruct (CreateMeshComponent n (length l)
                  (default FTransform.Identity (T !! i))) as [c |];
        [destruct (InitializeMesh c n) |]; simpl.
      * unfold AddUnique. destruct (decide (c ∈ added)).
        -- destruct l; [rewrite Hnil by reflexivity; reflexivity | exact Hhead].
        -- destruct l as [| x l]; simpl.
           ++ reflexivity.
           ++ simpl in Hhead. destruct added; simpl in *; [discriminate | exact Hhead].
      * destruct l; [rewrite Hnil by reflexivity; reflexivity | exact Hhead].
      * destruct l; [rewrite Hnil by reflexivity; reflexivity | exact Hhead].
    + destruct st as [l added]. simpl in Hhead, Hnil. unfold create_mesh_step.
      destruct (negb (IsRelative n) && negb (FileExists n)); [exact Hnil |].
      simpl. intros Happ. apply app_eq_nil in Happ. tauto.
Qed.

(** X16. The base mesh: one that is set is never replaced, and the root
    component is then left alone; on an actor without components and
    without base mesh, the base mesh becomes the first component returned
    (and stays unset if none is returned), and it becomes the root
    component exactly when its relative transform is the identity. *)
Theorem CreateMeshComponentList_base (names : list string)
    (T : list FTransform.t) (M : list string)
    (a a' : ARRMeshActorMeshes Component) (added : list Component) :
  CreateMeshComponentList IsRelative FileExists CreateMeshComponent
    InitializeMesh RelativeTransformIsIdentity names T M a = Some (a', added) ->
  (forall base, BaseMeshComp a = Some base ->
     BaseMeshComp a' = Some base /\
     RootComponent a' = RootComponent a /\
     DestroyedComponents a' = DestroyedComponents a) /\
  (BaseMeshComp a = None -> MeshCompList a = [] ->
     BaseMeshComp a' = head added /\
     (forall first, head added = Some first ->
        RootComponent a' =
          (if RelativeTransformIsIdentity first then Some first
           else RootComponent a))).
Proof.
  intros E. destruct (CreateMeshComponentList_Some _ _ _ _ _ _ E)
    as (_ & -> & ->).
  split.
  - intros base Hbase. unfold choose_base_mesh; simpl. rewrite Hbase. auto.
  - intros Hnone Hempty. rewrite Hempty.
    destruct (create_mesh_loop_head T names 0 ([], [])) as [Hhead Hnil];
      [reflexivity | auto |].
    unfold choose_base_mesh; simpl. rewrite Hnone.
    destruct (loop T 0 names ([], [])) as [l' added'] eqn:El.
    simpl in Hhead, Hnil |- *.
    destruct l' as [| first rest].
    + rewrite Hnil by reflexivity. simpl. split; [reflexivity |].
      intros first Hf. discriminate.
    + simpl in Hhead. rewrite <- Hhead.
      destruct (RelativeTransformIsIdentity first) eqn:Hrel; simpl.
      * split; [reflexivity |]. intros f Hf. injection Hf as <-.
        now rewrite Hrel.
      * split; [reflexivity |]. intros f Hf. injection Hf as <-.
        now rewrite Hrel.
Qed.

End MeshCreationProperties.

(** Two meshes given by relative paths, on an actor without components. *)
Lemma example_CreateMeshComponentList :
  CreateMeshComponentList (fun _ => true) (fun _ => false)
    example_CreateMeshComponent (fun _ _ => true) (fun _ => true)
    ["body"; "wheel"] [] [] example_meshes =
  Some ({| MeshCompList := [0; 0; 1]%nat; BaseMeshComp := Some 0%nat;
           RootComponent := Some 0%nat; DestroyedComponents := [1000%nat] |},
        [0; 1]%nat).
Proof. reflexivity. Qed.

Lemma CreateMeshComponentList_result_witness :
  let a' := {| MeshCompList := [0; 0; 1]%nat; BaseMeshComp := Some 0%nat;
               RootComponent := Some 0%nat;
               DestroyedComponents := [1000%nat] |} in
  CreateMeshComponentList (fun _ => true) (fun _ => false)
    example_CreateMeshComponent (fun _ _ => true) (fun _ => true)
    ["body"; "wheel"] [] [] example_meshes = Some (a', [0; 1]%nat) /\
  NoDup [0; 1]%nat /\
  (length [0; 1]%nat <= length ["body"; "wheel"])%nat /\
  (forall c, c ∈ [0; 1]%nat ->
     created_for example_CreateMeshComponent (fun _ _ => true)
       ["body"; "wheel"] c) /\
  MeshCompList example_meshes `prefix_of` MeshCompList a' /\
  (forall c, c ∈ MeshCompList a' <->
             c ∈ MeshCompList example_meshes \/ c ∈ [0; 1]%nat).
Proof.
  cbv zeta. split; [exact example_CreateMeshComponentList |].
  apply (CreateMeshComponentList_result (fun _ => true) (fun _ => false)
           example_CreateMeshComponent (fun _ _ => true) (fun _ => true)
           ["body"; "wheel"] [] [] example_meshes _ _
           example_CreateMeshComponentList).
Defined.

Lemma CreateMeshComponentList_growth_witness :
  let a' := {| MeshCompList := [0; 0; 1]%nat; BaseMeshComp := Some 0%nat;
               RootComponent := Some 0%nat;
               DestroyedComponents := [1000%nat] |} in
  CreateMeshComponentList (fun _ => true) (fun _ => false)
    example_CreateMeshComponent (fun _ _ => true) (fun _ => true)
    ["body"; "wheel"] [] [] example_meshes = Some (a', [0; 1]%nat) /\
  (forall n : string, n ∈ ["body"; "wheel"] -> true = true \/ false = true) /\
  (forall n : string, n ∈ ["body"; "wheel"] ->
     forall k t, is_Some (example_CreateMeshComponent n k t)) /\
  (forall n : string, n ∈ ["body"; "wheel"] -> forall c : nat, true = true) /\
  (forall n1 n2 k1 k2 t1 t2 c,
      example_CreateMeshComponent n1 k1 t1 = Some c ->
      example_CreateMeshComponent n2 k2 t2 = Some c -> k1 = k2) /\
  length [0; 1]%nat = length ["body"; "wheel"] /\
  (2 * length (MeshCompList a') =
   2 * length (MeshCompList example_meshes) +
   length ["body"; "wheel"] * (length ["body"; "wheel"] + 1))%nat.
Proof.
  cbv zeta.
  assert (Hpath : forall n : string, n ∈ ["body"; "wheel"] ->
                    true = true \/ false = true) by (intros; now left).
  assert (Hcreate : forall n : string, n ∈ ["body"; "wheel"] ->
            forall k t, is_Some (example_CreateMeshComponent n k t))
    by (intros n _ k t; now exists k).
  assert (Hinit : forall n : string, n ∈ ["body"; "wheel"] ->
                    forall c : nat, true = true) by reflexivity.
  assert (Hdistinct : forall n1 n2 k1 k2 t1 t2 c,
            example_CreateMeshComponent n1 k1 t1 = Some c ->
            example_CreateMeshComponent n2 k2 t2 = Some c -> k1 = k2)
    by (unfold example_CreateMeshComponent; congruence).
  split; [exact example_CreateMeshComponentList |].
  split; [exact Hpath |]. split; [exact Hcreate |]. split; [exact Hinit |].
  split; [exact Hdistinct |].
  apply (CreateMeshComponentList_growth (fun _ => true) (fun _ => false)
           example_CreateMeshComponent (fun _ _ => true) (fun _ => true)
           ["body"; "wheel"] [] [] example_meshes _ _
           example_CreateMeshComponentList Hpath Hcreate Hinit Hdistinct).
Defined.

Lemma CreateMeshComponentList_base_witness :
  let a' := {| MeshCompList := [0; 0; 1]%nat; BaseMeshComp := Some 0%nat;
               RootComponent := Some 0%nat;
               DestroyedComponents := [1000%nat] |} in
  CreateMeshComponentList (fun _ => true) (fun _ => false)
    example_CreateMeshComponent (fun _ _ => true) (fun _ => true)
    ["body"; "wheel"] [] [] example_meshes = Some (a', [0; 1]%nat) /\
  (BaseMeshComp example_meshes = None -> MeshCompList example_meshes = [] ->
   BaseMeshComp a' = head [0; 1]%nat /\
   (forall first, head [0; 1]%nat = Some first ->
      RootComponent a' =
        (if (fun _ : nat => true) first then Some first
         else RootComponent example_meshes))).
Proof.
  cbv zeta. split; [exact example_CreateMeshComponentList |].
  apply (CreateMeshComponentList_base (fun _ => true) (fun _ => false)
           example_CreateMeshComponent (fun _ _ => true) (fun _ => true)
           ["body"; "wheel"] [] [] example_meshes _ _
           example_CreateMeshComponentList).
Defined.


(** * Noise disabled: the ground truth passes through *)

Section PassthroughProperties.

Context `{Externals}.

Lemma InitOdom_initial_reference (w0 : Tick) (s : URRBaseOdomComponent) :
  InitialTransform (InitOdom w0 s) = initial_reference w0 s.
Proof.
  unfold initial_reference, InitOdom; simpl.
  destruct (OdomSource s); reflexivity.
Qed.

(** Without a call of [InitOdom], an initialised component keeps its
    reference transform. *)
Lemma run_calls_keep_reference (cs : list Call) (s : URRBaseOdomComponent) :
  bIsOdomInitialized s = true ->
  Forall (fun c => is_CallInitOdom c = false) cs ->
  InitialTransform (run_calls cs s) = InitialTransform s /\
  bIsOdomInitialized (run_calls cs s) = true.
Proof.
  revert s. induction cs as [| c cs IH]; intros s Hinit Hcs; simpl.
  - auto.
  - inversion Hcs as [| c' cs' Hc Hrest]; subst.
    assert (Hstep : InitialTransform (call c s) = InitialTransform s).
    { destruct c as [w | w dt | w | f c]; cbn [call].
      - discriminate Hc.
      - now apply UpdateOdom_InitialTransform.
      - unfold SensorUpdate. destruct (bManualUpdate s); [reflexivity |].
        apply (UpdateOdom_InitialTransform w
                 (TimeSeconds w - LastUpdatedTime s) s Hinit).
      - reflexivity. }
    destruct (IH (call c s) (call_keeps_initialized c s Hinit) Hrest)
      as [Ht Hi].
    split; [now rewrite Ht | exact Hi].
Qed.

(** The passthrough, from an initialised noise-free state that satisfies
    the invariant. *)
Lemma passthrough_from_initialized (cs : list Call) (w : Tick) (dt : float)
    (s0 : URRBaseOdomComponent) :
  bWithNoise s0 = false ->
  bIsOdomInitialized s0 = true ->
  noiseless_invariant s0 ->
  Forall (fun c => is_CallInitOdom c = false) cs ->
  Forall reads_unit_quat cs ->
  IsUnit (ActorQuat w) ->
  ~ dt < float32_1e_9 ->
  passes_ground_truth (InitialTransform s0) (RootOffset s0) w
    (UpdateOdom w dt (run_calls cs s0)).
Proof.
  intros Hnoise Hflag Hinv Hno Hcs Hw Hdt.
  destruct (run_calls_noiseless cs s0 Hnoise Hcs Hinv) as (Hinv1 & Hb1 & Hr1).
  destruct (run_calls_keep_reference cs s0 Hflag Hno) as [Href1 Hflag1].
  set (s1 := run_calls cs s0) in *.
  rewrite UpdateOdom_at_guard by exact Hdt.
  rewrite ensure_initialized_id by exact Hflag1.
  destruct (UpdateOdom_body_noiseless w dt s1 Hb1 Hflag1 Hw Hinv1)
    as (_ & Hsame & Hp & Ho).
  destruct (UpdateOdom_body_fields w dt s1) as (_ & Ht & _).
  destruct (UpdateOdom_body_frame w dt s1) as (_ & _ & Hi & _).
  cbv zeta in Hsame, Hp, Ho, Ht, Hi.
  rewrite Hi, Href1, Hr1 in Hp, Ho. rewrite Href1 in Ht.
  unfold passes_ground_truth.
  split; [now rewrite Hi |]. split; [exact Hsame |].
  split; [now rewrite Ht |]. split; [now rewrite Ht |].
  split; [exact Hp | exact Ho].
Qed.

(** C3. With noise disabled, after an initialisation that reads the tick
    [w0], any run of calls that does not initialise again and then an
    update that passes the elapsed-time guard (in particular any elapsed
    time above 1e-9), all reading unit ground-truth orientations: the
    reference transform is still the one fixed by that initialisation, the
    emitted position is the ground-truth position relative to it plus the
    root offset's translation, the emitted orientation is the ground-truth
    orientation relative to it times the root offset's rotation, and
    [PreviousNoisyTransform] equals [PreviousTransform], both holding the
    relative ground truth.  This holds when the initialisation is an
    explicit [InitOdom] and when it is the lazy one of the first
    [UpdateOdom] of a fresh component. *)
Theorem noiseless_passthrough (cs : list Call) (w0 w : Tick) (dt : float)
    (s : URRBaseOdomComponent) :
  bWithNoise s = false ->
  Forall (fun c => is_CallInitOdom c = false) cs ->
  Forall reads_unit_quat cs ->
  IsUnit (ActorQuat w0) ->
  IsUnit (ActorQuat w) ->
  ~ dt < float32_1e_9 ->
  passes_ground_truth (initial_reference w0 s) (RootOffset s) w
    (UpdateOdom w dt (run_calls cs (InitOdom w0 s))) /\
  (bIsOdomInitialized s = false ->
   forall dt0 : float,
     passes_ground_truth (initial_reference w0 s) (RootOffset s) w
       (UpdateOdom w dt (run_calls cs (UpdateOdom w0 dt0 s)))).
Proof.
  intros Hnoise Hno Hcs Hw0 Hw Hdt.
  assert (Hb0 : bWithNoise (InitOdom w0 s) = false)
    by now rewrite InitOdom_bWithNoise.
  pose proof (InitOdom_initialized w0 s) as Hflag0.
  pose proof (InitOdom_noiseless w0 s Hw0) as Hinv0.
  split.
  - rewrite <- InitOdom_initial_reference, <- (InitOdom_RootOffset w0 s).
    now apply passthrough_from_initialized.
  - intros Hfresh dt0.
    assert (Hlazy : UpdateOdom w0 dt0 s = UpdateOdom w0 dt0 (InitOdom w0 s)).
    { unfold UpdateOdom, ensure_initialized. now rewrite Hfresh, Hflag0. }
    rewrite Hlazy.
    change (run_calls cs (UpdateOdom w0 dt0 (InitOdom w0 s)))
      with (run_calls (CallUpdateOdom w0 dt0 :: cs) (InitOdom w0 s)).
    rewrite <- InitOdom_initial_reference, <- (InitOdom_RootOffset w0 s).
    apply passthrough_from_initialized; try assumption.
    + constructor; [reflexivity | exact Hno].
    + constructor; [exact Hw0 | exact Hcs].
Qed.

End PassthroughProperties.

(** A body that starts at (1, 2, 3), turned half a turn, and is later at
    (4, 6, 3), unturned. *)
Lemma noiseless_passthrough_witness :
  let s := example_component ENCODER false in
  let cs := [CallUpdateOdom (example_tick 1 0.5 0.25 30) 1;
             CallSensorUpdate (example_tick 2 (-0.5) 0 10)] in
  let w0 := example_tick 0 0 0 0 in
  let w := {| ActorLocation := FVector.Make 4 6 3;
              ActorQuat := FQuat.Identity;
              TimeSeconds := 3;
              DrawPositionX := 0.125; DrawPositionY := 0; DrawRotation := 45 |} in
  bWithNoise s = false /\
  Forall (fun c => is_CallInitOdom c = false) cs /\
  Forall reads_unit_quat cs /\
  IsUnit (ActorQuat w0) /\
  IsUnit (ActorQuat w) /\
  ~ 1 < float32_1e_9 /\
  initial_reference w0 s =
    FTransform.Make (FQuat.Make 0 0 1 0) (FVector.Make 1 2 3) FVector.OneVector /\
  passes_ground_truth (initial_reference w0 s) (RootOffset s) w
    (@UpdateOdom example_externals w 1
       (@run_calls example_externals cs (InitOdom w0 s))).
Proof.
  cbv zeta.
  assert (Hu : IsUnit (FQuat.Make 0 0 1 0))
    by (unfold IsUnit, FQuat.SizeSquared; simpl; ring).
  assert (Hno : Forall (fun c => is_CallInitOdom c = false)
                  [CallUpdateOdom (example_tick 1 0.5 0.25 30) 1;
                   CallSensorUpdate (example_tick 2 (-0.5) 0 10)])
    by (repeat constructor).
  assert (Hcs : Forall reads_unit_quat
                  [CallUpdateOdom (example_tick 1 0.5 0.25 30) 1;
                   CallSensorUpdate (example_tick 2 (-0.5) 0 10)])
    by (repeat constructor; exact Hu).
  assert (Hdt : ~ 1 < float32_1e_9) by (unfold float32_1e_9; lra).
  split; [reflexivity |]. split; [exact Hno |]. split; [exact Hcs |].
  split; [exact Hu |]. split; [exact IsUnit_Identity |]. split; [exact Hdt |].
  split; [reflexivity |].
  apply (@noiseless_passthrough example_externals
           [CallUpdateOdom (example_tick 1 0.5 0.25 30) 1;
            CallSensorUpdate (example_tick 2 (-0.5) 0 10)]
           (example_tick 0 0 0 0)
           {| ActorLocation := FVector.Make 4 6 3;
              ActorQuat := FQuat.Identity;
              TimeSeconds := 3;
              DrawPositionX := 0.125; DrawPositionY := 0; DrawRotation := 45 |}
           1 (example_component ENCODER false)
           eq_refl Hno Hcs Hu IsUnit_Identity Hdt).
Defined.
